(** * QR Studio: the [QrGenerator] component

    A shallow embedding of [src/components/QrGenerator.tsx]: the URL check
    [isValidHttpUrl], the logo loader [loadImage], the memoised values
    [targetUrl], [canGenerate], [embedLogo], the effect body [run] and the
    input handlers, followed by the properties of the rendering contract.

    What the browser and the [qrcode] package provide is gathered in the
    record [Env]: the URL parser behind [new URL], the conversion behind
    [Number(...)], the QR engine [QRCode.toCanvas], the image fetch behind
    [new Image()], and image resampling and alpha blending.  The
    definitions of the component take an [Env] and are otherwise concrete.

    Numbers are IEEE 754 binary64 values, computed with the operations
    of [SpecFloat]; the sizes and coordinates the canvas works with are
    integers.  The two [await]s of [run] are sequenced in program order:
    one run of the effect completes before the next starts. *)

From Stdlib Require Import ZArith NArith List Bool String Ascii Lia.
From Stdlib Require Import Floats.SpecFloat.
Import ListNotations.

Local Open Scope Z_scope.

(* ================================================================== *)
(** ** JavaScript values: strings, numbers, thrown values *)
(* ================================================================== *)

Module JS.

(** A JavaScript string is a sequence of UTF-16 code units. *)
Definition JSString := list N.

(** String literals of the source, written as Rocq strings. *)
Definition js (s : string) : JSString :=
  map N_of_ascii (list_ascii_of_string s).

(** [a === b] on strings. *)
Fixpoint str_eqb (a b : JSString) : bool :=
  match a, b with
  | [], [] => true
  | x :: a', y :: b' => N.eqb x y && str_eqb a' b'
  | _, _ => false
  end.

(** The code units removed by [String.prototype.trim]: WhiteSpace and
    LineTerminator of ECMAScript (TAB, LF, VT, FF, CR, SP, NBSP, the
    Unicode space separators, LS, PS and the byte order mark). *)
Definition is_white_space (c : N) : bool :=
  ((9 <=? c) && (c <=? 13) || (c =? 32) || (c =? 160) || (c =? 5760)
   || (8192 <=? c) && (c <=? 8202) || (c =? 8232) || (c =? 8233)
   || (c =? 8239) || (c =? 8287) || (c =? 12288) || (c =? 65279))%N.

Fixpoint trimStart (s : JSString) : JSString :=
  match s with
  | [] => []
  | c :: s' => if is_white_space c then trimStart s' else s
  end.

Definition trimEnd (s : JSString) : JSString := rev (trimStart (rev s)).

(** [s.trim()] *)
Definition trim (s : JSString) : JSString := trimEnd (trimStart s).

(** A JavaScript Number is an IEEE 754 binary64 value. *)
Definition Number := spec_float.

Definition prec : Z := 53.
Definition emax : Z := 1024.

(** The Number of an integer literal (exact below 2^53). *)
Definition of_Z (n : Z) : Number := binary_normalize prec emax n 0 false.

Definition NaN : Number := S754_nan.

Definition mul : Number -> Number -> Number := SFmul prec emax.
Definition div : Number -> Number -> Number := SFdiv prec emax.
Definition sub : Number -> Number -> Number := SFsub prec emax.
Definition leb : Number -> Number -> bool := SFleb.

(** The Number of the decimal literal [0.dd] with [k = dd]: the binary64
    value nearest to [k/100], which is also what the correctly rounded
    quotient of the exact Numbers [k] and [100] is. *)
Definition hundredths (k : Z) : Number := div (of_Z k) (of_Z 100).

(** The signed integer mantissa of a finite Number. *)
Definition signed (s : bool) (m : positive) : Z :=
  if s then Z.neg m else Z.pos m.

(** Mathematical floor of a finite Number; [None] for NaN and infinities. *)
Definition floor_int (x : Number) : option Z :=
  match x with
  | S754_zero _ => Some 0
  | S754_finite s m e =>
      Some (if 0 <=? e then Z.shiftl (signed s m) e
            else Z.shiftr (signed s m) (- e))
  | _ => None
  end.

(** [Math.floor(x)]: NaN, the infinities and the zeros are returned as
    they are. *)
Definition Math_floor (x : Number) : Number :=
  match x with
  | S754_finite s m e =>
      match floor_int x with
      | Some 0 => S754_zero s
      | Some q => of_Z q
      | None => x
      end
  | _ => x
  end.

(** The integer a Number denotes, when it is finite and integral. *)
Definition as_int (x : Number) : option Z :=
  match x with
  | S754_zero _ => Some 0
  | S754_finite s m e =>
      if 0 <=? e then Some (Z.shiftl (signed s m) e)
      else if Z.shiftl (Z.shiftr (signed s m) (- e)) (- e) =? signed s m
           then Some (Z.shiftr (signed s m) (- e))
           else None
  | _ => None
  end.

(** Truncation toward zero of a finite Number. *)
Definition trunc_int (x : Number) : option Z :=
  match x with
  | S754_zero _ => Some 0
  | S754_finite s m e =>
      let a := if 0 <=? e then Z.shiftl (Z.pos m) e
               else Z.shiftr (Z.pos m) (- e) in
      Some (if s then - a else a)
  | _ => None
  end.

(** What a [throw] or a promise rejection carries: an [Error] object with
    its [message], or a value that is not an [Error] (the [Event] handed
    to [img.onerror], for one). *)
Inductive Value :=
| ErrorObject (message : JSString)
| NotAnError.

(** [err instanceof Error ? err.message : fallback] *)
Definition message_or (fallback : JSString) (err : Value) : JSString :=
  match err with
  | ErrorObject m => m
  | NotAnError => fallback
  end.

(** Completion of a computation that may throw. *)
Inductive Completion (A : Type) :=
| Normal (a : A)
| Throw (v : Value).
Arguments Normal {A} a.
Arguments Throw {A} v.

End JS.

Import JS.

(* ================================================================== *)
(** ** The canvas element and its 2D context *)
(* ================================================================== *)

Module Canvas2D.

Record RGBA := mkRGBA { red : Z; green : Z; blue : Z; alpha : Z }.

Definition transparent_black : RGBA := mkRGBA 0 0 0 0.
Definition opaque_black : RGBA := mkRGBA 0 0 0 255.
Definition white : RGBA := mkRGBA 255 255 255 255.

(** A canvas element: its bitmap dimensions, the fill style of its 2D
    context and the bitmap, one colour per pixel; only the pixels
    [0 <= px < width], [0 <= py < height] are part of the bitmap.  The
    context's transform, global alpha and compositing operator stay at
    their defaults throughout the component. *)
Record Canvas := mkCanvas {
  width : Z;
  height : Z;
  fillStyle : RGBA;
  pixels : Z -> Z -> RGBA
}.

Definition in_bitmap (c : Canvas) (px py : Z) : Prop :=
  0 <= px < width c /\ 0 <= py < height c.

(** Two canvases show the same image. *)
Definition same_image (c1 c2 : Canvas) : Prop :=
  width c1 = width c2 /\ height c1 = height c2 /\
  forall px py, in_bitmap c1 px py -> pixels c1 px py = pixels c2 px py.

(** The value of a hexadecimal digit. *)
Definition hex_digit (c : N) : option Z :=
  if ((48 <=? c) && (c <=? 57))%N then Some (Z.of_N c - 48)
  else if ((65 <=? c) && (c <=? 70))%N then Some (Z.of_N c - 55)
  else if ((97 <=? c) && (c <=? 102))%N then Some (Z.of_N c - 87)
  else None.

Definition hex_pair (h l : N) : option Z :=
  match hex_digit h, hex_digit l with
  | Some a, Some b => Some (16 * a + b)
  | _, _ => None
  end.

(** CSS colours of the form [#RRGGBB], the only form the component
    writes. *)
Definition parse_color (s : JSString) : option RGBA :=
  match s with
  | [35%N; r1; r0; g1; g0; b1; b0] =>
      match hex_pair r1 r0, hex_pair g1 g0, hex_pair b1 b0 with
      | Some r, Some g, Some b => Some (mkRGBA r g b 255)
      | _, _, _ => None
      end
  | _ => None
  end.

(** [ctx.fillStyle = s]: a string that is not a colour is ignored. *)
Definition set_fillStyle (s : JSString) (c : Canvas) : Canvas :=
  match parse_color s with
  | Some col => mkCanvas (width c) (height c) col (pixels c)
  | None => c
  end.

(** The unsigned long a Number converts to (NaN and the infinities give
    0, the fraction is dropped, the result is taken modulo 2^32), as
    reflected by a canvas dimension: a value above 2^31 - 1 gives the
    attribute's default. *)
Definition canvas_dim (default : Z) (v : Number) : Z :=
  match trunc_int v with
  | Some n => let u := n mod 4294967296 in
              if u <=? 2147483647 then u else default
  | None => 0
  end.

(** Setting [canvas.width] or [canvas.height] replaces the bitmap by
    transparent black and resets the context to its default state. *)
Definition blank (w h : Z) : Canvas :=
  mkCanvas w h opaque_black (fun _ _ => transparent_black).

Definition set_width (v : Number) (c : Canvas) : Canvas :=
  blank (canvas_dim 300 v) (height c).

Definition set_height (v : Number) (c : Canvas) : Canvas :=
  blank (width c) (canvas_dim 150 v).

(** Pixel [(px, py)] lies in the rectangle with corner [(x, y)] and
    extents [(w, h)]; a negative extent reaches to the left or upward. *)
Definition in_rect (x y w h px py : Z) : bool :=
  (Z.min x (x + w) <=? px) && (px <? Z.max x (x + w))
  && (Z.min y (y + h) <=? py) && (py <? Z.max y (y + h)).

(** [ctx.clearRect(x, y, w, h)] at integer coordinates. *)
Definition clearRect (x y w h : Z) (c : Canvas) : Canvas :=
  mkCanvas (width c) (height c) (fillStyle c)
    (fun px py => if in_rect x y w h px py then transparent_black
                  else pixels c px py).

(** A decoded image. *)
Record Image := mkImage {
  naturalWidth : Z;
  naturalHeight : Z;
  bitmap : Z -> Z -> RGBA
}.

Section Compositing.

(** How the browser blends a partly transparent colour over another,
    and the colour of pixel [(i, j)] of an image scaled to [w] by [h]. *)
Variable blend : RGBA -> RGBA -> RGBA.
Variable resample : Image -> Z -> Z -> Z -> Z -> RGBA.

(** The default compositing operator: an opaque source replaces the
    destination and a fully transparent one leaves it. *)
Definition source_over (src dst : RGBA) : RGBA :=
  if alpha src =? 255 then src
  else if alpha src =? 0 then dst
  else blend src dst.

(** [ctx.fillRect(x, y, w, h)].  A call with a NaN or infinite argument
    is ignored.  The arguments the component passes come out of
    [Math.floor]; fractional coordinates are not modelled. *)
Definition fillRect (x y w h : Number) (c : Canvas) : Canvas :=
  match as_int x, as_int y, as_int w, as_int h with
  | Some x', Some y', Some w', Some h' =>
      mkCanvas (width c) (height c) (fillStyle c)
        (fun px py =>
           if in_rect x' y' w' h' px py
           then source_over (fillStyle c) (pixels c px py)
           else pixels c px py)
  | _, _, _, _ => c
  end.

(** [ctx.drawImage(img, dx, dy, dw, dh)]: the image scaled to the
    destination rectangle and composited over what is there.  Nothing
    is drawn for an empty image or a non-finite argument. *)
Definition drawImage (img : Image) (dx dy dw dh : Number) (c : Canvas)
  : Canvas :=
  match as_int dx, as_int dy, as_int dw, as_int dh with
  | Some x', Some y', Some w', Some h' =>
      if (naturalWidth img =? 0) || (naturalHeight img =? 0) then c
      else
        mkCanvas (width c) (height c) (fillStyle c)
          (fun px py =>
             if in_rect x' y' w' h' px py
             then source_over (resample img w' h' (px - x') (py - y'))
                              (pixels c px py)
             else pixels c px py)
  | _, _, _, _ => c
  end.

End Compositing.

End Canvas2D.

Import Canvas2D.

(* ================================================================== *)
(** ** The [qrcode] package and the rest of the environment *)
(* ================================================================== *)

Module QRCode.

Record Color := mkColor { dark : JSString; light : JSString }.

(** The options object handed to [QRCode.toCanvas]. *)
Record Options := mkOptions {
  errorCorrectionLevel : JSString;
  margin : Number;
  width : Number;
  color : Color
}.

End QRCode.

(** The part of a parsed URL the component reads. *)
Record URL := mkURL { scheme : JSString; href : JSString }.

(** [u.protocol]: the scheme followed by a colon. *)
Definition protocol (u : URL) : JSString := scheme u ++ js ":".

(** What the component calls but does not define.
    - [URL_parse]: the URL parser; [None] where [new URL] throws.
    - [ToNumber]: [Number(value)] on a string.
    - [QRCode_toCanvas]: the engine, given the canvas, the text and the
      options; it returns the canvas as it leaves it and, when it
      rejects, the value it rejects with.
    - [fetch_image]: the image behind a [src] requested with the given
      [crossOrigin]; [None] when the load fails.
    - [resample] and [blend]: as in [Canvas2D]. *)
Record Env := mkEnv {
  URL_parse : JSString -> option URL;
  ToNumber : JSString -> Number;
  QRCode_toCanvas :
    Canvas -> JSString -> QRCode.Options -> Canvas * option Value;
  fetch_image : JSString -> JSString -> option Image;
  resample : Image -> Z -> Z -> Z -> Z -> RGBA;
  blend : RGBA -> RGBA -> RGBA
}.

(* ================================================================== *)
(** ** The component *)
(* ================================================================== *)

Inductive Mode := redirect | website | plain.

Definition Mode_eqb (a b : Mode) : bool :=
  match a, b with
  | redirect, redirect | website, website | plain, plain => true
  | _, _ => false
  end.

Definition DEFAULT_REDIRECT_URL : JSString :=
  js "https://www.example.com/app-redirect".

(** The hooks the user edits; [run] reads them. *)
Record State := mkState {
  mode : Mode;
  websiteUrl : JSString;
  redirectUrl : JSString;
  size : Number;
  logoRatio : Number;
  margin : Number
}.

Definition initial_state : State :=
  mkState redirect (js "https://www.example.com") DEFAULT_REDIRECT_URL
          (of_Z 900) (hundredths 20) (of_Z 2).

(** The calls [run] makes on the canvas and on the environment, in the
    order it makes them. *)
Inductive Call :=
| Call_clearRect (x y w h : Z)
| Call_toCanvas (text : JSString) (opts : QRCode.Options)
| Call_loadImage (src : JSString)
| Call_fillStyle (s : JSString)
| Call_fillRect (x y w h : Number)
| Call_drawImage (img : Image) (dx dy dw dh : Number).

(** What [run] writes: the [error] hook, the canvas element behind
    [canvasRef] ([mounted] says whether [canvasRef.current] is set and
    [context2d] whether [getContext("2d")] gives a context), and the
    log of calls. *)
Record World := mkWorld {
  error : option JSString;
  mounted : bool;
  context2d : bool;
  canvas : Canvas;
  calls : list Call
}.

(** Computations over the world that may throw; what was written before
    a throw stays written. *)
Definition M (A : Type) : Type := World -> Completion A * World.

Definition ret {A} (a : A) : M A := fun w => (Normal a, w).

Definition bind {A B} (m : M A) (k : A -> M B) : M B :=
  fun w => match m w with
           | (Normal a, w') => k a w'
           | (Throw v, w') => (Throw v, w')
           end.

Definition throw {A} (v : Value) : M A := fun w => (Throw v, w).

(** [try { body } catch (err) { handler(err) }] *)
Definition try_catch {A} (body : M A) (handler : Value -> M A) : M A :=
  fun w => match body w with
           | (Normal a, w') => (Normal a, w')
           | (Throw v, w') => handler v w'
           end.

Declare Scope js_scope.
Delimit Scope js_scope with js.
Notation "x <- m ;; k" := (bind m (fun x => k))
  (at level 100, m at next level, right associativity) : js_scope.
Notation "m ;; k" := (bind m (fun _ => k))
  (at level 100, right associativity) : js_scope.
Local Open Scope js_scope.

Definition setError (e : option JSString) : M unit :=
  fun w => (Normal tt,
            mkWorld e (mounted w) (context2d w) (canvas w) (calls w)).

Definition log (c : Call) : M unit :=
  fun w => (Normal tt,
            mkWorld (error w) (mounted w) (context2d w) (canvas w)
                    (calls w ++ [c])).

Definition on_canvas (f : Canvas -> Canvas) : M unit :=
  fun w => (Normal tt,
            mkWorld (error w) (mounted w) (context2d w) (f (canvas w))
                    (calls w)).

Definition canvasRef_current : M (option Canvas) :=
  fun w => (Normal (if mounted w then Some (canvas w) else None), w).

Definition getContext_2d : M bool :=
  fun w => (Normal (context2d w), w).

Definition canvas_width : M Z :=
  fun w => (Normal (Canvas2D.width (canvas w)), w).

Definition canvas_height : M Z :=
  fun w => (Normal (Canvas2D.height (canvas w)), w).

Section Component.

Variable env : Env.

(** [new URL(value)]: throws a [TypeError] where the parser fails. *)
Definition new_URL (value : JSString) : Completion URL :=
  match URL_parse env value with
  | Some u => Normal u
  | None => Throw (ErrorObject (js "Invalid URL"))
  end.

(** [isValidHttpUrl(value)]: the body touches no state, so it is a
    completion and not a computation over the world. *)
Definition isValidHttpUrl (value : JSString) : Completion bool :=
  match new_URL value with
  | Normal u =>
      Normal (str_eqb (protocol u) (js "http:")
              || str_eqb (protocol u) (js "https:"))
  | Throw _ => Normal false
  end.

(** [loadImage(src)]: resolves with the image on [onload]; [onerror]
    rejects with the event it is handed, which is not an [Error]. *)
Definition loadImage (src : JSString) : M Image :=
  log (Call_loadImage src) ;;
  match fetch_image env src (js "anonymous") with
  | Some img => ret img
  | None => throw NotAnError
  end.

Definition embedLogo (st : State) : bool :=
  negb (Mode_eqb (mode st) plain).

Definition targetUrl (st : State) : JSString :=
  if Mode_eqb (mode st) redirect then trim (redirectUrl st)
  else trim (websiteUrl st).

(** [useMemo(() => isValidHttpUrl(targetUrl))]; the second branch is
    never taken, [isValidHttpUrl] completing normally on every
    string. *)
Definition canGenerate (st : State) : bool :=
  match isValidHttpUrl (targetUrl st) with
  | Normal b => b
  | Throw _ => false
  end.

(** Operations of the canvas and its context, logged. *)
Definition ctx_clearRect (x y w h : Z) : M unit :=
  log (Call_clearRect x y w h) ;; on_canvas (clearRect x y w h).

Definition ctx_set_fillStyle (s : JSString) : M unit :=
  log (Call_fillStyle s) ;; on_canvas (set_fillStyle s).

Definition ctx_fillRect (x y w h : Number) : M unit :=
  log (Call_fillRect x y w h) ;;
  on_canvas (fillRect (blend env) x y w h).

Definition ctx_drawImage (img : Image) (dx dy dw dh : Number) : M unit :=
  log (Call_drawImage img dx dy dw dh) ;;
  on_canvas (drawImage (blend env) (resample env) img dx dy dw dh).

(** [await QRCode.toCanvas(canvas, text, opts)] *)
Definition toCanvas (text : JSString) (opts : QRCode.Options) : M unit :=
  log (Call_toCanvas text opts) ;;
  fun w =>
    let (c', r) := QRCode_toCanvas env (canvas w) text opts in
    (match r with None => Normal tt | Some v => Throw v end,
     mkWorld (error w) (mounted w) (context2d w) c' (calls w)).

(** The options [run] builds for the engine. *)
Definition qr_options (st : State) : QRCode.Options :=
  QRCode.mkOptions
    (if embedLogo st then js "H" else js "M")
    (margin st)
    (size st)
    (QRCode.mkColor (js "#000000") (js "#FFFFFF")).

(** [Math.floor(size * logoRatio)] *)
Definition logoSize (st : State) : Number :=
  Math_floor (mul (size st) (logoRatio st)).

(** [Math.floor(size / 2 - logoSize / 2)], the value of both [x] and
    [y]. *)
Definition logoCorner (st : State) : Number :=
  Math_floor (sub (div (size st) (of_Z 2)) (div (logoSize st) (of_Z 2))).

(** The body of the effect. *)
Definition run (st : State) : M unit :=
  setError None ;;
  ref <- canvasRef_current ;;
  match ref with
  | None => ret tt
  | Some _ =>
      ctx <- getContext_2d ;;
      if negb ctx then ret tt
      else if negb (canGenerate st) then
        w <- canvas_width ;;
        h <- canvas_height ;;
        ctx_clearRect 0 0 w h ;;
        setError (Some (js "Please enter a valid http/https URL."))
      else
        on_canvas (set_width (size st)) ;;
        on_canvas (set_height (size st)) ;;
        try_catch
          (toCanvas (targetUrl st) (qr_options st) ;;
           if embedLogo st then
             logo <- loadImage (js "/logo.png") ;;
             let logoSize := logoSize st in
             let x := logoCorner st in
             let y := logoCorner st in
             ctx_set_fillStyle (js "#FFFFFF") ;;
             ctx_fillRect x y logoSize logoSize ;;
             ctx_drawImage logo x y logoSize logoSize
           else ret tt)
          (fun err =>
             setError (Some (message_or (js "Failed to generate QR.") err)))
  end.

(** What the user does to the controls; a change event carries
    [e.target.value]. *)
Inductive Event :=
| Click_mode (m : Mode)
| Change_redirectUrl (value : JSString)
| Change_websiteUrl (value : JSString)
| Change_size (value : JSString)
| Change_margin (value : JSString)
| Change_logoRatio (value : JSString).

(** The [onClick] and [onChange] handlers. *)
Definition handle (ev : Event) (st : State) : State :=
  match ev with
  | Click_mode m =>
      mkState m (websiteUrl st) (redirectUrl st)
              (size st) (logoRatio st) (margin st)
  | Change_redirectUrl v =>
      mkState (mode st) (websiteUrl st) v
              (size st) (logoRatio st) (margin st)
  | Change_websiteUrl v =>
      mkState (mode st) v (redirectUrl st)
              (size st) (logoRatio st) (margin st)
  | Change_size v =>
      mkState (mode st) (websiteUrl st) (redirectUrl st)
              (ToNumber env v) (logoRatio st) (margin st)
  | Change_margin v =>
      mkState (mode st) (websiteUrl st) (redirectUrl st)
              (size st) (logoRatio st) (ToNumber env v)
  | Change_logoRatio v =>
      mkState (mode st) (websiteUrl st) (redirectUrl st)
              (size st) (ToNumber env v) (margin st)
  end.


(** The world left by one run of the effect. *)
Definition after_run (st : State) (w : World) : World := snd (run st w).

End Component.

(** The world when the component has mounted: a canvas of the default
    300 by 150, nothing drawn, nothing reported. *)
Definition mounted_world : World :=
  mkWorld None true true (blank 300 150) [].

(* ================================================================== *)
(** ** A concrete environment *)
(* ================================================================== *)

(** Stand-ins for the browser and the engine, small enough to evaluate:
    they serve to run the component on concrete inputs. *)
Module Sample.

Definition is_alpha (c : N) : bool :=
  ((65 <=? c) && (c <=? 90) || (97 <=? c) && (c <=? 122))%N.

Definition is_digit (c : N) : bool := ((48 <=? c) && (c <=? 57))%N.

Definition to_lower (c : N) : N :=
  if ((65 <=? c) && (c <=? 90))%N then (c + 32)%N else c.

(** Splits [scheme ":" rest]; the scheme is lower-cased as the URL
    parser does. *)
Fixpoint split_scheme (s acc : JSString) : option (JSString * JSString) :=
  match s with
  | [] => None
  | c :: r =>
      if (c =? 58)%N then Some (rev acc, r)
      else if is_alpha c || is_digit c
              || (c =? 43)%N || (c =? 45)%N || (c =? 46)%N
           then split_scheme r (to_lower c :: acc)
           else None
  end.

Fixpoint drop_slashes (s : JSString) : JSString :=
  match s with
  | c :: r => if ((c =? 47) || (c =? 92))%N then drop_slashes r else s
  | [] => []
  end.

(** A URL parser for inputs of the shape [scheme:rest]: the scheme
    starts with a letter and a URL needs something after its slashes. *)
Definition parse (s : JSString) : option URL :=
  match s with
  | c :: _ =>
      if is_alpha c then
        match split_scheme s [] with
        | Some (sch, rest) =>
            match drop_slashes rest with
            | [] => None
            | _ :: _ => Some (mkURL sch s)
            end
        | None => None
        end
      else None
  | [] => None
  end.

Fixpoint digits_value (s : JSString) (acc : Z) : option Z :=
  match s with
  | [] => Some acc
  | c :: r => if is_digit c then digits_value r (10 * acc + (Z.of_N c - 48))
              else None
  end.

(** [Number(value)] for the empty string and for strings of decimal
    digits. *)
Definition to_number (s : JSString) : Number :=
  match digits_value s 0 with
  | Some n => of_Z n
  | None => NaN
  end.

(** An engine that rejects a text longer than the capacity of the level
    and otherwise makes the canvas square, of the requested width, and
    paints a chequered pattern in place of the modules. *)
Definition engine (c : Canvas) (text : JSString) (o : QRCode.Options)
  : Canvas * option Value :=
  let capacity :=
    if str_eqb (QRCode.errorCorrectionLevel o) (js "H") then 1273 else 2331 in
  if capacity <? Z.of_nat (List.length text)
  then (c, Some (ErrorObject (js "The amount of data is too big")))
  else
    let n := canvas_dim 300 (QRCode.width o) in
    (mkCanvas n n (fillStyle c)
       (fun px py => if Z.even (px / 4 + py / 4) then opaque_black else white),
     None).

(** A two by two logo: red, green, blue and one transparent pixel. *)
Definition logo : Image :=
  mkImage 2 2
    (fun i j =>
       if (i =? 0) && (j =? 0) then mkRGBA 255 0 0 255
       else if (i =? 1) && (j =? 0) then mkRGBA 0 255 0 255
       else if (i =? 0) && (j =? 1) then mkRGBA 0 0 255 255
       else transparent_black).

Definition fetch (src cors : JSString) : option Image :=
  if str_eqb src (js "/logo.png") then Some logo else None.

(** Nearest-neighbour scaling. *)
Definition nearest (img : Image) (w h i j : Z) : RGBA :=
  bitmap img (i * naturalWidth img / w) (j * naturalHeight img / h).

Definition mix (a s d : Z) : Z := (s * a + d * (255 - a)) / 255.

Definition alpha_blend (src dst : RGBA) : RGBA :=
  mkRGBA (mix (alpha src) (red src) (red dst))
         (mix (alpha src) (green src) (green dst))
         (mix (alpha src) (blue src) (blue dst))
         (alpha src + alpha dst * (255 - alpha src) / 255).

(** The logo is served. *)
Definition online : Env :=
  mkEnv parse to_number engine fetch nearest alpha_blend.

(** The logo cannot be loaded. *)
Definition offline : Env :=
  mkEnv parse to_number engine (fun _ _ => None) nearest alpha_blend.

(** The mounted canvas showing an earlier drawing. *)
Definition painted_world : World :=
  mkWorld (Some (js "stale")) true true
          (mkCanvas 640 480 white (fun _ _ => mkRGBA 10 20 30 255)) [].

Definition with_redirectUrl (value : JSString) : State :=
  handle online (Change_redirectUrl value) initial_state.

Definition plain_state : State :=
  handle online (Click_mode plain) initial_state.

(** An ftp URL in the redirect field. *)
Definition ftp_state : State := with_redirectUrl (js "ftp://example.com").




(** A space, a tab and a no-break space. *)
Definition padding : JSString := [32%N; 9%N; 160%N].

End Sample.

(* ================================================================== *)
(** ** Vocabulary of the properties *)
(* ================================================================== *)

(** The world agrees with another on what the user sees: the message
    and the image. *)
Definition same_output (w1 w2 : World) : Prop :=
  error w1 = error w2 /\ same_image (canvas w1) (canvas w2).



(** The URL field the current mode reads. *)
Definition active_field (st : State) : JSString :=
  if Mode_eqb (mode st) redirect then redirectUrl st else websiteUrl st.

(** The state with that field replaced. *)
Definition with_active_field (value : JSString) (st : State) : State :=
  if Mode_eqb (mode st) redirect
  then mkState (mode st) (websiteUrl st) value
               (size st) (logoRatio st) (margin st)
  else mkState (mode st) value (redirectUrl st)
               (size st) (logoRatio st) (margin st).

(** The canvas as [run] hands it to the engine: sized by the two
    assignments and blank. *)
Definition allocated (st : State) : Canvas :=
  blank (canvas_dim 300 (size st)) (canvas_dim 150 (size st)).

(** What the engine answers to the call [run] makes. *)
Definition engine_result (env : Env) (st : State) : Canvas * option Value :=
  QRCode_toCanvas env (allocated st) (targetUrl st) (qr_options st).

(** The colour the final image has at offset [(i, j)] of a logo square
    of side [l]: the logo over white, white alone for an empty logo. *)
Definition white_backed (env : Env) (img : Image) (l i j : Z) : RGBA :=
  if (naturalWidth img =? 0) || (naturalHeight img =? 0) then white
  else source_over (blend env) (resample env img l l i j) white.

Definition is_toCanvas (c : Call) : bool :=
  match c with Call_toCanvas _ _ => true | _ => false end.

(* ================================================================== *)
(** ** Checks of the Number arithmetic, decided by evaluation *)
(* ================================================================== *)

(** The integers [a, a + 1, ..., a + n - 1]. *)
Definition zrange (a : Z) (n : nat) : list Z :=
  map (fun i => a + Z.of_nat i) (seq 0 n).

(** On the integer size [s] and the ratio [r] of the slider position
    [k/100], [Math.floor(s * r)] is the integer [floor (s * k / 100)]. *)
Definition slider_floor_ok (r : Number) (k s : Z) : bool :=
  match as_int (Math_floor (mul (of_Z s) r)) with
  | Some l => l =? s * k / 100
  | None => false
  end.

(** The ratio of a slider position is a binary64 number between those
    of 0.14 and 0.26, and the above holds at every size from 300 to
    2000. *)
Definition slider_ok (k : Z) : bool :=
  let r := hundredths k in
  valid_binary prec emax r
  && leb (hundredths 14) r && leb r (hundredths 26)
  && forallb (slider_floor_ok r k) (zrange 300 1701).

(** Structural equality of Numbers. *)
Definition same_Number (x y : Number) : bool :=
  match x, y with
  | S754_zero a, S754_zero b => Bool.eqb a b
  | S754_infinity a, S754_infinity b => Bool.eqb a b
  | S754_nan, S754_nan => true
  | S754_finite a m e, S754_finite b n f =>
      Bool.eqb a b && Pos.eqb m n && (e =? f)
  | _, _ => false
  end.

(** The Number of an integer [n] from 1 to 2^53 - 1 has the mantissa
    [n * 2^k] and the exponent [-k], where [k = 52 - log2 n]. *)
Definition shift_of (n : Z) : Z := 52 - Z.log2 n.

Definition int_mantissa (n : Z) : positive := Z.to_pos (n * 2 ^ shift_of n).

(** [n] and [n / 2] as Numbers have that form, and [n] is read back
    from its Number, as an integer and by truncation. *)
Definition int_forms_ok (n : Z) : bool :=
  same_Number (of_Z n) (S754_finite false (int_mantissa n) (- shift_of n))
  && same_Number (div (of_Z n) (of_Z 2))
                 (S754_finite false (int_mantissa n) (- shift_of n - 1))
  && match as_int (of_Z n) with Some n' => n' =? n | None => false end
  && match trunc_int (of_Z n) with Some n' => n' =? n | None => false end.

(** The floor of the Number normalised from [d * 2^a] at exponent
    [-a - 1], which is [d / 2], is the integer [floor (d / 2)]. *)
Definition half_floor_ok (a d : Z) : bool :=
  match as_int (Math_floor
                  (binary_normalize prec emax (d * 2 ^ a) (- a - 1) false))
  with
  | Some x => x =? d / 2
  | None => false
  end.

(* ================================================================== *)
(** ** The effect's dependencies, the controls and the download *)
(* ================================================================== *)

(** The dependency list of the effect,
    [[targetUrl, size, logoRatio, margin, canGenerate, embedLogo]],
    compared as React compares it: strings and booleans by value,
    Numbers as [Object.is] does. *)
Definition deps_same (env : Env) (a b : State) : bool :=
  str_eqb (targetUrl a) (targetUrl b)
  && same_Number (size a) (size b)
  && same_Number (logoRatio a) (logoRatio b)
  && same_Number (margin a) (margin b)
  && Bool.eqb (canGenerate env a) (canGenerate env b)
  && Bool.eqb (embedLogo a) (embedLogo b).





(** The controls the component renders: the redirect field in redirect
    mode and the website field otherwise, the ratio slider only with a
    logo; the mode buttons and the size and margin fields always. *)
Definition offered (st : State) (ev : Event) : bool :=
  match ev with
  | Click_mode _ => true
  | Change_redirectUrl _ => Mode_eqb (mode st) redirect
  | Change_websiteUrl _ => negb (Mode_eqb (mode st) redirect)
  | Change_size _ => true
  | Change_margin _ => true
  | Change_logoRatio _ => embedLogo st
  end.

(** What clicking the anchor of [downloadPng] downloads. *)
Record Download := mkDownload { a_href : JSString; a_download : JSString }.

(** The [fileName] of [downloadPng]. *)
Definition fileName (m : Mode) : JSString :=
  if Mode_eqb m redirect then js "qr-redirect.png"
  else if Mode_eqb m website then js "qr-website.png"
  else js "qr-plain.png".

(** [downloadPng], given [canvas.toDataURL]: nothing without a canvas. *)
Definition downloadPng (toDataURL : Canvas -> JSString -> JSString)
    (st : State) (w : World) : option Download :=
  if mounted w
  then Some (mkDownload (toDataURL (canvas w) (js "image/png"))
                        (fileName (mode st)))
  else None.

(** The Download button is [disabled={!canGenerate}]; a click on a
    disabled button does nothing. *)
Definition click_download (env : Env)
    (toDataURL : Canvas -> JSString -> JSString)
    (st : State) (w : World) : option Download :=
  if negb (canGenerate env st) then None else downloadPng toDataURL st w.

(** The state with another logo ratio. *)
Definition with_logoRatio (r : Number) (st : State) : State :=
  mkState (mode st) (websiteUrl st) (redirectUrl st)
          (size st) r (margin st).

(** The pixels of the rectangle [run] hands to [fillRect] and
    [drawImage]; none when an argument is not a finite integer. *)
Definition in_logo_square (st : State) (px py : Z) : bool :=
  match as_int (logoCorner st), as_int (logoSize st) with
  | Some x, Some l => in_rect x x l l px py
  | _, _ => false
  end.

(** The string begins with a white-space code unit. *)
Definition starts_white (s : JSString) : bool :=
  match s with
  | c :: _ => is_white_space c
  | [] => false
  end.

Definition is_loadImage (c : Call) : bool :=
  match c with Call_loadImage _ => true | _ => false end.

Definition is_drawing (c : Call) : bool :=
  match c with
  | Call_fillStyle _ | Call_fillRect _ _ _ _ | Call_drawImage _ _ _ _ _ => true
  | _ => false
  end.

(** Inputs for running the further properties. *)
Module Scenario.

(** A URL longer than the sample engine takes at level H. *)
Definition long_state : State :=
  Sample.with_redirectUrl (js "https://example.com/" ++ repeat 97%N 1300).

(** The website field edited while the redirect field is shown. *)
Definition hidden_edit : State :=
  handle Sample.online (Change_websiteUrl (js "https://other.example"))
         initial_state.

(** A stand-in for [canvas.toDataURL]: the type and the width. *)
Definition data_url (c : Canvas) (type : JSString) : JSString :=
  js "data:" ++ type ++ [N.of_nat (Z.to_nat (Canvas2D.width c))].

(** A world without a canvas, showing an earlier message. *)
Definition unmounted_world : World :=
  mkWorld (Some (js "stale")) false true (blank 300 150) [].

End Scenario.

(* ================================================================== *)
(** ** Strings *)
(* ================================================================== *)

Lemma str_eqb_eq (a b : JSString) : str_eqb a b = true <-> a = b.
Proof.
  revert b; induction a as [|x a IH]; intros [|y b]; simpl;
    try (split; [discriminate | discriminate]); try tauto.
  rewrite andb_true_iff, N.eqb_eq, IH.
  split; [intros [-> ->]; reflexivity | intros H; inversion H; auto].
Qed.

Lemma trimStart_app_white (ws s : JSString) :
  forallb is_white_space ws = true -> trimStart (ws ++ s) = trimStart s.
Proof.
  induction ws as [|c ws IH]; simpl; [reflexivity|].
  rewrite andb_true_iff; intros [Hc Hws]. rewrite Hc. auto.
Qed.

Lemma trimEnd_app_white (s ws : JSString) :
  forallb is_white_space ws = true -> trimEnd (s ++ ws) = trimEnd s.
Proof.
  intros H. unfold trimEnd. rewrite rev_app_distr.
  rewrite trimStart_app_white; [reflexivity|].
  rewrite forallb_forall in *. intros c Hc. apply H, in_rev, Hc.
Qed.

(** Dropping leading white space commutes with trailing white space,
    up to what [trimEnd] removes. *)
Lemma trimEnd_trimStart_app_white (s ws : JSString) :
  forallb is_white_space ws = true ->
  trimEnd (trimStart (s ++ ws)) = trimEnd (trimStart s).
Proof.
  intros H. induction s as [|c s IH]; simpl.
  - replace ws with (ws ++ []) by apply app_nil_r.
    rewrite trimStart_app_white by exact H. reflexivity.
  - destruct (is_white_space c); [exact IH|].
    change (c :: s ++ ws) with ((c :: s) ++ ws).
    apply trimEnd_app_white, H.
Qed.

Lemma trim_padded (pre s post : JSString) :
  forallb is_white_space pre = true ->
  forallb is_white_space post = true ->
  trim (pre ++ s ++ post) = trim s.
Proof.
  intros Hpre Hpost. unfold trim.
  rewrite trimStart_app_white by exact Hpre.
  apply trimEnd_trimStart_app_white, Hpost.
Qed.

Lemma protocol_is (u : URL) (s : string) :
  str_eqb (protocol u) (js s ++ js ":") = true <-> scheme u = js s.
Proof.
  rewrite str_eqb_eq. unfold protocol.
  split; [apply app_inv_tail | intros ->; reflexivity].
Qed.

(* ================================================================== *)
(** ** One run of the effect, case by case *)
(* ================================================================== *)

Lemma resize_allocated (st : State) (c : Canvas) :
  set_height (size st) (set_width (size st) c) = allocated st.
Proof. reflexivity. Qed.

Ltac unfold_run :=
  cbv beta iota zeta delta
    [after_run run bind ret throw try_catch setError
     canvasRef_current getContext_2d canvas_width canvas_height
     ctx_clearRect ctx_set_fillStyle ctx_fillRect ctx_drawImage
     toCanvas loadImage log on_canvas];
  cbn [error mounted context2d canvas calls fst snd negb];
  try rewrite resize_allocated.

Ltac enter_run Hm Hc Hv :=
  unfold_run; rewrite Hm, Hc, Hv; unfold_run.

Ltac then_by H := rewrite H; unfold_run.

Section RunCases.

Variable env : Env.

Lemma isValidHttpUrl_total (value : JSString) :
  exists b, isValidHttpUrl env value = Normal b.
Proof.
  unfold isValidHttpUrl, new_URL.
  destruct (URL_parse env value); eauto.
Qed.

Lemma isValidHttpUrl_true_iff (value : JSString) :
  isValidHttpUrl env value = Normal true <->
  exists u, URL_parse env value = Some u /\
            (scheme u = js "http" \/ scheme u = js "https").
Proof.
  unfold isValidHttpUrl, new_URL.
  destruct (URL_parse env value) as [u|].
  - split.
    + intros H. injection H as H. apply orb_true_iff in H.
      exists u. split; [reflexivity|].
      destruct H as [H|H]; [left | right].
      * apply (proj1 (protocol_is u "http")), H.
      * apply (proj1 (protocol_is u "https")), H.
    + intros [u' [Hu H]]. injection Hu as <-. f_equal.
      apply orb_true_iff.
      destruct H as [H|H]; [left | right].
      * apply (proj2 (protocol_is u "http")), H.
      * apply (proj2 (protocol_is u "https")), H.
  - split; [discriminate | intros [u [Hu _]]; discriminate].
Qed.

Lemma canGenerate_true_iff (st : State) :
  canGenerate env st = true <->
  exists u, URL_parse env (targetUrl st) = Some u /\
            (scheme u = js "http" \/ scheme u = js "https").
Proof.
  rewrite <- isValidHttpUrl_true_iff. unfold canGenerate.
  destruct (isValidHttpUrl_total (targetUrl st)) as [b ->].
  split; [intros -> | intros H; injection H]; auto.
Qed.

Variable st : State.
Variable w : World.

(** No canvas, or no context: only the message is reset. *)
Lemma run_no_canvas :
  mounted w = false \/ context2d w = false ->
  run env st w =
  (Normal tt, mkWorld None (mounted w) (context2d w) (canvas w) (calls w)).
Proof.
  destruct w as [e [|] [|] c l]; unfold_run;
    intros [H|H]; try discriminate; reflexivity.
Qed.

Hypothesis Hmounted : mounted w = true.
Hypothesis Hcontext : context2d w = true.

(** The URL is refused: the canvas is cleared and the message set. *)
Lemma run_refused :
  canGenerate env st = false ->
  run env st w =
  (Normal tt,
   mkWorld (Some (js "Please enter a valid http/https URL.")) true true
     (clearRect 0 0 (Canvas2D.width (canvas w)) (Canvas2D.height (canvas w))
                (canvas w))
     (calls w ++ [Call_clearRect 0 0 (Canvas2D.width (canvas w))
                                 (Canvas2D.height (canvas w))])).
Proof.
  intros Hgen. enter_run Hmounted Hcontext Hgen. reflexivity.
Qed.

Hypothesis Hvalid : canGenerate env st = true.

(** The engine rejects: its error is reported, nothing else is
    called. *)
Lemma run_engine_rejects (c' : Canvas) (v : Value) :
  engine_result env st = (c', Some v) ->
  run env st w =
  (Normal tt,
   mkWorld (Some (message_or (js "Failed to generate QR.") v)) true true c'
     (calls w ++ [Call_toCanvas (targetUrl st) (qr_options st)])).
Proof.
  intros H. enter_run Hmounted Hcontext Hvalid.
  unfold engine_result in H. then_by H. reflexivity.
Qed.

(** No logo: the canvas is as the engine left it. *)
Lemma run_plain (c' : Canvas) :
  engine_result env st = (c', None) ->
  embedLogo st = false ->
  run env st w =
  (Normal tt,
   mkWorld None true true c'
     (calls w ++ [Call_toCanvas (targetUrl st) (qr_options st)])).
Proof.
  intros H Hlogo. enter_run Hmounted Hcontext Hvalid.
  unfold engine_result in H. then_by H. then_by Hlogo. reflexivity.
Qed.

(** The logo does not load: the fallback message is reported and the
    canvas is as the engine left it. *)
Lemma run_logo_missing (c' : Canvas) :
  engine_result env st = (c', None) ->
  embedLogo st = true ->
  fetch_image env (js "/logo.png") (js "anonymous") = None ->
  run env st w =
  (Normal tt,
   mkWorld (Some (js "Failed to generate QR.")) true true c'
     (calls w ++ [Call_toCanvas (targetUrl st) (qr_options st)]
              ++ [Call_loadImage (js "/logo.png")])).
Proof.
  intros H Hlogo Hfetch. enter_run Hmounted Hcontext Hvalid.
  unfold engine_result in H. then_by H. then_by Hlogo. then_by Hfetch.
  rewrite <- app_assoc. reflexivity.
Qed.

(** The logo loads: white square, then the logo, on the engine's
    output. *)
Lemma run_logo (c' : Canvas) (img : Image) :
  engine_result env st = (c', None) ->
  embedLogo st = true ->
  fetch_image env (js "/logo.png") (js "anonymous") = Some img ->
  run env st w =
  (Normal tt,
   mkWorld None true true
     (drawImage (blend env) (resample env) img
        (logoCorner st) (logoCorner st) (logoSize st) (logoSize st)
        (fillRect (blend env)
           (logoCorner st) (logoCorner st) (logoSize st) (logoSize st)
           (set_fillStyle (js "#FFFFFF") c')))
     (calls w ++ [Call_toCanvas (targetUrl st) (qr_options st)]
              ++ [Call_loadImage (js "/logo.png")]
              ++ [Call_fillStyle (js "#FFFFFF")]
              ++ [Call_fillRect (logoCorner st) (logoCorner st)
                                (logoSize st) (logoSize st)]
              ++ [Call_drawImage img (logoCorner st) (logoCorner st)
                                 (logoSize st) (logoSize st)])).
Proof.
  intros H Hlogo Hfetch. enter_run Hmounted Hcontext Hvalid.
  unfold engine_result in H. then_by H. then_by Hlogo. then_by Hfetch.
  repeat rewrite <- app_assoc. reflexivity.
Qed.

End RunCases.

(* ================================================================== *)
(** ** Checking by evaluation over a range of integers *)
(* ================================================================== *)

Lemma zrange_In (a z : Z) (n : nat) :
  a <= z < a + Z.of_nat n -> In z (zrange a n).
Proof.
  intros H. unfold zrange. apply in_map_iff.
  exists (Z.to_nat (z - a)). split; [lia | apply in_seq; lia].
Qed.

Lemma forallb_zrange (f : Z -> bool) (a : Z) (n : nat) :
  forallb f (zrange a n) = true ->
  forall z, a <= z < a + Z.of_nat n -> f z = true.
Proof.
  intros H z Hz. rewrite forallb_forall in H. apply H, zrange_In, Hz.
Qed.

(* ================================================================== *)
(** ** Rounding of binary64 arithmetic *)
(* ================================================================== *)

Lemma digits2_pos_size (m : positive) : digits2_pos m = Pos.size m.
Proof. induction m; simpl; congruence. Qed.

(** A mantissa of [d] digits lies in [2^(d-1), 2^d). *)
Lemma digits2_bounds (m : positive) :
  2 ^ (Z.pos (digits2_pos m) - 1) <= Z.pos m < 2 ^ Z.pos (digits2_pos m).
Proof.
  rewrite digits2_pos_size. split.
  - pose proof (Pos.size_le m) as H.
    apply Pos2Z.pos_le_pos in H. rewrite Pos2Z.inj_pow in H.
    replace (Z.pos (Pos.size m)) with (Z.succ (Z.pos (Pos.size m) - 1)) in H
      by lia.
    rewrite Z.pow_succ_r in H by lia.
    change (Z.pos m~0) with (2 * Z.pos m) in H.
    lia.
  - pose proof (Pos.size_gt m) as H.
    apply Pos2Z.pos_lt_pos in H. rewrite Pos2Z.inj_pow in H. exact H.
Qed.

Lemma digits2_unique (m : positive) (k : Z) :
  2 ^ (k - 1) <= Z.pos m < 2 ^ k -> Z.pos (digits2_pos m) = k.
Proof.
  intros [Hlo Hhi]. destruct (digits2_bounds m) as [Dlo Dhi].
  set (d := Z.pos (digits2_pos m)) in *.
  destruct (Z.lt_trichotomy d k) as [H|[H|H]]; [|exact H|].
  - assert (2 ^ d <= 2 ^ (k - 1)) by (apply Z.pow_le_mono_r; lia). lia.
  - assert (0 <= k).
    { destruct (Z.neg_nonneg_cases k) as [Hk|]; [|assumption].
      rewrite (Z.pow_neg_r 2 k Hk) in Hhi. lia. }
    assert (2 ^ k <= 2 ^ (d - 1)) by (apply Z.pow_le_mono_r; lia). lia.
Qed.

(** Shifting a record right keeps the quotient in its mantissa. *)
Lemma shr_1_m (mrs : shr_record) :
  0 <= shr_m mrs -> shr_m (shr_1 mrs) = Z.div2 (shr_m mrs).
Proof.
  destruct mrs as [[|[p|p|]|p] r s]; simpl; intros H; try reflexivity; lia.
Qed.

Lemma shr_iter_m (p : positive) :
  forall mrs, 0 <= shr_m mrs ->
    shr_m (iter_pos shr_1 p mrs) = Z.shiftr (shr_m mrs) (Z.pos p).
Proof.
  assert (Hnn : forall q mrs, 0 <= shr_m mrs ->
                  0 <= Z.shiftr (shr_m mrs) q).
  { intros q mrs H. apply Z.shiftr_nonneg, H. }
  induction p as [p IH|p IH|]; intros mrs H; simpl.
  - rewrite IH; rewrite IH; rewrite ?shr_1_m; try assumption;
      rewrite ?Z.div2_spec; try (apply Z.shiftr_nonneg; assumption).
    + rewrite !Z.shiftr_shiftr by lia. f_equal. lia.
    + apply Z.shiftr_nonneg, Z.shiftr_nonneg, H.
  - rewrite IH; rewrite IH; try assumption.
    + rewrite Z.shiftr_shiftr by lia. f_equal. lia.
    + apply Z.shiftr_nonneg, H.
  - rewrite shr_1_m by assumption. apply Z.div2_spec.
Qed.

Lemma round_nearest_even_bounds (m : Z) (l : location) :
  m <= round_nearest_even m l <= m + 1.
Proof.
  destruct l as [|[| |]]; simpl; try lia. destruct (Z.even m); lia.
Qed.

Lemma shr_record_of_loc_m (m : Z) (l : location) :
  shr_m (shr_record_of_loc m l) = m.
Proof. destruct l as [|[| |]]; reflexivity. Qed.

(** [shr] by [n] places: the mantissa is shifted by [n] when [n] is
    positive and untouched otherwise. *)
Lemma shr_spec (m : Z) (l : location) (e n : Z) :
  0 <= m ->
  exists mrs,
    shr (shr_record_of_loc m l) e n = (mrs, e + Z.max 0 n) /\
    shr_m mrs = Z.shiftr m (Z.max 0 n) /\
    (n <= 0 -> mrs = shr_record_of_loc m l).
Proof.
  intros Hm. destruct n as [|p|p]; simpl.
  - exists (shr_record_of_loc m l). rewrite Z.add_0_r, shr_record_of_loc_m.
    repeat split.
  - exists (iter_pos shr_1 p (shr_record_of_loc m l)).
    rewrite shr_iter_m by (rewrite shr_record_of_loc_m; exact Hm).
    rewrite shr_record_of_loc_m. repeat split. lia.
  - exists (shr_record_of_loc m l). rewrite Z.add_0_r, shr_record_of_loc_m.
    repeat split.
Qed.

(** Rounding a positive integer mantissa of at least 53 digits, in the
    range of normal numbers: the result is finite, its exponent is the
    canonical one or one more, and its mantissa, at the canonical
    exponent, is the shifted mantissa or its successor. *)
Lemma binary_round_aux_faithful (mx : positive) (ex : Z) :
  let d := Z.pos (digits2_pos mx) in
  53 <= d -> -1074 <= d + ex - 53 -> d + ex <= 1023 ->
  exists m e,
    binary_round_aux prec emax false (Z.pos mx) ex loc_Exact
    = S754_finite false m e /\
    0 <= e - (d + ex - 53) <= 1 /\
    Z.shiftr (Z.pos mx) (d - 53) <= Z.pos m * 2 ^ (e - (d + ex - 53))
      <= Z.shiftr (Z.pos mx) (d - 53) + 1.
Proof.
  intros d Hd Hlo Hhi.
  destruct (digits2_bounds mx) as [Dlo Dhi]. fold d in Dlo, Dhi.
  set (e1 := d + ex - 53).
  set (m1 := Z.shiftr (Z.pos mx) (d - 53)).
  assert (Hm1 : 2 ^ 52 <= m1 < 2 ^ 53).
  { unfold m1. rewrite Z.shiftr_div_pow2 by lia.
    assert (Hp : 2 ^ (d - 1) = 2 ^ 52 * 2 ^ (d - 53))
      by (rewrite <- Z.pow_add_r by lia; f_equal; lia).
    assert (Hq : 2 ^ d = 2 ^ 53 * 2 ^ (d - 53))
      by (rewrite <- Z.pow_add_r by lia; f_equal; lia).
    assert (0 < 2 ^ (d - 53)) by (apply Z.pow_pos_nonneg; lia).
    split.
    - apply Z.div_le_lower_bound; lia.
    - apply Z.div_lt_upper_bound; lia. }
  change (2 ^ 52) with 4503599627370496 in Hm1.
  change (2 ^ 53) with 9007199254740992 in Hm1.
  unfold binary_round_aux, shr_fexp.
  change (Zdigits2 (Z.pos mx)) with d.
  assert (Hf1 : fexp prec emax (d + ex) - ex = d - 53)
    by (unfold fexp, emin, prec, emax; lia).
  rewrite Hf1.
  destruct (shr_spec (Z.pos mx) loc_Exact ex (d - 53) ltac:(lia))
    as (mrs & -> & Hmrs & _).
  rewrite Z.max_r in Hmrs by lia. fold m1 in Hmrs.
  replace (ex + Z.max 0 (d - 53)) with e1 by (unfold e1; lia).
  rewrite Hmrs.
  pose proof (round_nearest_even_bounds m1 (loc_of_shr_record mrs)) as Hr.
  set (m2 := round_nearest_even m1 (loc_of_shr_record mrs)) in *.
  destruct m2 as [|p2|p2] eqn:E2; try lia.
  destruct (Z.eq_dec (Z.pos p2) 9007199254740992) as [Htop|Hnot].
  - (* the mantissa rounds up to 2^53 and is shifted once more *)
    assert (Hd2 : Zdigits2 (Z.pos p2) = 54)
      by (apply digits2_unique; rewrite Htop; split;
          [discriminate | reflexivity]).
    rewrite Hd2.
    assert (Hf2 : fexp prec emax (54 + e1) - e1 = 1)
      by (unfold fexp, emin, prec, emax, e1; lia).
    rewrite Hf2. injection Htop as ->.
    change (shr (shr_record_of_loc 9007199254740992 loc_Exact) e1 1)
      with (Build_shr_record 4503599627370496 false false, e1 + 1).
    cbn [shr_m].
    assert (Hle : (e1 + 1 <=? emax - prec) = true)
      by (apply Z.leb_le; unfold emax, prec, e1; lia).
    rewrite Hle. exists 4503599627370496%positive, (e1 + 1).
    split; [reflexivity|].
    replace (e1 + 1 - e1) with 1 by lia. change (2 ^ 1) with 2. lia.
  - assert (Hd2 : Zdigits2 (Z.pos p2) = 53)
      by (apply digits2_unique; change (2 ^ (53 - 1)) with 4503599627370496;
          change (2 ^ 53) with 9007199254740992; lia).
    rewrite Hd2.
    assert (Hf2 : fexp prec emax (53 + e1) - e1 = 0)
      by (unfold fexp, emin, prec, emax, e1; lia).
    rewrite Hf2.
    change (shr (shr_record_of_loc (Z.pos p2) loc_Exact) e1 0)
      with (Build_shr_record (Z.pos p2) false false, e1).
    cbn [shr_m].
    assert (Hle : (e1 <=? emax - prec) = true)
      by (apply Z.leb_le; unfold emax, prec, e1; lia).
    rewrite Hle. exists p2, e1. split; [reflexivity|].
    rewrite Z.sub_diag, Z.mul_1_r. lia.
Qed.

(** The floor of a product of two positive Numbers is the floor of the
    exact product or one more: rounding the product to nearest can
    carry it up to the next integer, never down below the floor. *)
Lemma floor_mul_faithful (ms mr : positive) (es er : Z) :
  let d := Z.pos (digits2_pos (ms * mr)) in
  53 <= d -> -1074 <= d + (es + er) - 53 -> d + (es + er) <= 51 ->
  exists q,
    floor_int (mul (S754_finite false ms es) (S754_finite false mr er))
    = Some q /\
    (q <> 0 ->
     Math_floor (mul (S754_finite false ms es) (S754_finite false mr er))
     = of_Z q) /\
    Z.pos (ms * mr) / 2 ^ (- (es + er)) <= q
      <= Z.pos (ms * mr) / 2 ^ (- (es + er)) + 1.
Proof.
  intros d Hd Hlo Hhi.
  assert (Hhi' : d + (es + er) <= 1023) by lia.
  destruct (binary_round_aux_faithful (ms * mr) (es + er) Hd Hlo Hhi')
    as (m & e & Hround & He & Hm).
  fold d in He, Hm.
  unfold mul, SFmul. cbn [xorb]. rewrite Hround.
  set (mx := Z.pos (ms * mr)) in *. set (ex := es + er) in *.
  set (e1 := d + ex - 53) in *.
  assert (He0 : e < 0) by lia.
  assert (Hfloor : floor_int (S754_finite false m e)
                   = Some (Z.shiftr (Z.pos m) (- e))).
  { unfold floor_int, signed.
    destruct (0 <=? e) eqn:E; [apply Z.leb_le in E; lia | reflexivity]. }
  exists (Z.shiftr (Z.pos m) (- e)). split; [exact Hfloor|]. split.
  - intros Hq. unfold Math_floor. rewrite Hfloor.
    destruct (Z.shiftr (Z.pos m) (- e)); [contradiction | reflexivity..].
  - rewrite Z.shiftr_div_pow2 by lia.
    rewrite Z.shiftr_div_pow2 in Hm by lia.
    set (P := 2 ^ (- e1)).
    assert (HP : 0 < P) by (apply Z.pow_pos_nonneg; lia).
    assert (HJ : 0 < 2 ^ (e - e1)) by (apply Z.pow_pos_nonneg; lia).
    assert (HD : 0 < 2 ^ (d - 53)) by (apply Z.pow_pos_nonneg; lia).
    assert (Hq : Z.pos m / 2 ^ (- e) = (Z.pos m * 2 ^ (e - e1)) / P).
    { unfold P. replace (- e1) with (- e + (e - e1)) by lia.
      rewrite Z.pow_add_r by lia.
      rewrite Z.div_mul_cancel_r; [reflexivity | | lia].
      apply Z.pow_nonzero; lia. }
    assert (HF : mx / 2 ^ (- ex) = (mx / 2 ^ (d - 53)) / P).
    { unfold P. rewrite Z.div_div by lia.
      rewrite <- Z.pow_add_r by lia. do 2 f_equal. unfold e1. lia. }
    rewrite Hq, HF. split.
    + apply Z.div_le_mono; lia.
    + transitivity ((mx / 2 ^ (d - 53) + 1 * P) / P).
      * apply Z.div_le_mono; lia.
      * rewrite Z.div_add by lia. lia.
Qed.

(** A valid Number between two positive finite Numbers of exponents
    [-55] and [-54] has a 53-digit mantissa and one of these
    exponents. *)
Lemma ratio_between (r : Number) (lo hi : positive) :
  valid_binary prec emax r = true ->
  leb (S754_finite false lo (-55)) r = true ->
  leb r (S754_finite false hi (-54)) = true ->
  exists m e,
    r = S754_finite false m e /\
    2 ^ 52 <= Z.pos m < 2 ^ 53 /\
    ((e = -55 /\ Z.pos lo <= Z.pos m) \/ (e = -54 /\ Z.pos m <= Z.pos hi)).
Proof.
  intros Hvalid Hlo Hhi.
  destruct r as [s|s| |s m e]; try discriminate.
  - destruct s; discriminate.
  - destruct s; [discriminate|].
    exists m, e. split; [reflexivity|].
    unfold leb, SFleb, SFcompare in Hlo, Hhi.
    destruct (Z.compare_spec (-55) e) as [E1|E1|E1]; try discriminate;
    destruct (Z.compare_spec e (-54)) as [E2|E2|E2]; try discriminate;
      try lia.
    + (* e = -55 *)
      subst e. unfold valid_binary, bounded, canonical_mantissa in Hvalid.
      apply andb_true_iff in Hvalid. destruct Hvalid as [Hc _].
      apply Z.eqb_eq in Hc. unfold fexp, emin, prec, emax in Hc.
      assert (Hd : Z.pos (digits2_pos m) = 53) by lia.
      pose proof (digits2_bounds m) as Hb. rewrite Hd in Hb.
      split; [exact Hb|]. left. split; [reflexivity|].
      rewrite Pos.compare_cont_spec in Hlo. simpl in Hlo.
      destruct (Pos.compare_spec lo m); try discriminate; lia.
    + (* e = -54 *)
      subst e. unfold valid_binary, bounded, canonical_mantissa in Hvalid.
      apply andb_true_iff in Hvalid. destruct Hvalid as [Hc _].
      apply Z.eqb_eq in Hc. unfold fexp, emin, prec, emax in Hc.
      assert (Hd : Z.pos (digits2_pos m) = 53) by lia.
      pose proof (digits2_bounds m) as Hb. rewrite Hd in Hb.
      split; [exact Hb|]. right. split; [reflexivity|].
      rewrite Pos.compare_cont_spec in Hhi. simpl in Hhi.
      destruct (Pos.compare_spec m hi); try discriminate; lia.
Qed.

(* ================================================================== *)
(** ** Integers as Numbers *)
(* ================================================================== *)

Lemma same_Number_eq (x y : Number) : same_Number x y = true -> x = y.
Proof.
  destruct x as [a|a| |a m e], y as [b|b| |b n f]; simpl;
    try discriminate; try reflexivity.
  - intros H. apply Bool.eqb_prop in H. congruence.
  - intros H. apply Bool.eqb_prop in H. congruence.
  - rewrite !andb_true_iff. intros [[Ha Hm] He].
    apply Bool.eqb_prop in Ha. apply Pos.eqb_eq in Hm. apply Z.eqb_eq in He.
    congruence.
Qed.

(** The integers from 1 to 2000, by evaluation. *)
Lemma int_forms_checked : forallb int_forms_ok (zrange 1 2000) = true.
Proof. vm_compute. reflexivity. Qed.

Lemma int_forms (n : Z) :
  1 <= n <= 2000 ->
  of_Z n = S754_finite false (int_mantissa n) (- shift_of n) /\
  div (of_Z n) (of_Z 2)
  = S754_finite false (int_mantissa n) (- shift_of n - 1) /\
  as_int (of_Z n) = Some n /\
  trunc_int (of_Z n) = Some n.
Proof.
  intros Hn.
  assert (H : int_forms_ok n = true).
  { apply (forallb_zrange int_forms_ok 1 2000 int_forms_checked).
    change (Z.of_nat 2000) with 2000. lia. }
  unfold int_forms_ok in H. rewrite !andb_true_iff in H.
  destruct H as [[[H1 H2] H3] H4].
  apply same_Number_eq in H1, H2.
  destruct (as_int (of_Z n)) as [n'|]; [|discriminate].
  destruct (trunc_int (of_Z n)) as [n''|]; [|discriminate].
  apply Z.eqb_eq in H3, H4. subst n' n''. repeat split; assumption.
Qed.

(** Every shift from 42 to 52 against every difference from 0 to
    1999, by evaluation. *)
Lemma half_floor_checked :
  forallb (fun a => forallb (half_floor_ok a) (zrange 0 2000))
          (zrange 42 11) = true.
Proof. vm_compute. reflexivity. Qed.

Lemma half_floor (a d : Z) :
  42 <= a <= 52 -> 0 <= d < 2000 ->
  as_int (Math_floor (binary_normalize prec emax (d * 2 ^ a) (- a - 1) false))
  = Some (d / 2).
Proof.
  intros Ha Hd.
  assert (H : half_floor_ok a d = true).
  { apply (forallb_zrange (half_floor_ok a) 0 2000);
      [|change (Z.of_nat 2000) with 2000; lia].
    apply (forallb_zrange
             (fun a => forallb (half_floor_ok a) (zrange 0 2000)) 42 11
             half_floor_checked).
    change (Z.of_nat 11) with 11. lia. }
  unfold half_floor_ok in H.
  destruct (as_int _) as [x|]; [|discriminate].
  apply Z.eqb_eq in H. congruence.
Qed.

Lemma shift_of_range (n : Z) : 1 <= n <= 2000 -> 42 <= shift_of n <= 52.
Proof.
  intros Hn. unfold shift_of.
  pose proof (Z.log2_nonneg n).
  assert (Z.log2 n < 11) by (apply Z.log2_lt_pow2; simpl; lia). lia.
Qed.

Lemma int_mantissa_value (n : Z) :
  1 <= n <= 2000 -> Z.pos (int_mantissa n) = n * 2 ^ shift_of n.
Proof.
  intros Hn. unfold int_mantissa. apply Z2Pos.id.
  pose proof (shift_of_range n Hn).
  assert (0 < 2 ^ shift_of n) by (apply Z.pow_pos_nonneg; lia). nia.
Qed.

(** Aligning a mantissa to a smaller exponent scales it by the power
    of two between the exponents. *)
Lemma shl_align_value (m : positive) (e e' : Z) :
  e' <= e -> Z.pos (fst (shl_align m e e')) = Z.pos m * 2 ^ (e - e').
Proof.
  intros H. unfold shl_align. destruct (e' - e) as [|d|d] eqn:E; try lia.
  - replace (e - e') with 0 by lia. simpl. lia.
  - cbn [fst]. replace (e - e') with (Z.pos d) by lia.
    rewrite <- Z.shiftl_mul_pow2 by lia. unfold Z.shiftl.
    apply (Pos.iter_swap_gen _ _ Z.pos xO (Z.mul 2)). reflexivity.
Qed.

(** The corner is exact for integers: from the halves of [s] and [q] the
    code obtains [floor ((s - q) / 2)]. *)
Lemma corner_exact (s q : Z) :
  1 <= q <= s -> s <= 2000 ->
  as_int (Math_floor (sub (div (of_Z s) (of_Z 2)) (div (of_Z q) (of_Z 2))))
  = Some ((s - q) / 2).
Proof.
  intros Hq Hs.
  destruct (int_forms s ltac:(lia)) as (_ & -> & _ & _).
  destruct (int_forms q ltac:(lia)) as (_ & -> & _ & _).
  pose proof (shift_of_range s ltac:(lia)) as Rs.
  pose proof (shift_of_range q ltac:(lia)) as Rq.
  assert (Hmono : shift_of s <= shift_of q).
  { unfold shift_of. pose proof (Z.log2_le_mono q s ltac:(lia)). lia. }
  unfold sub, SFsub. cbn [cond_Zopp].
  rewrite Z.min_r by lia.
  rewrite !shl_align_value by lia.
  rewrite !int_mantissa_value by lia.
  replace (- shift_of q - 1 - (- shift_of q - 1)) with 0 by lia.
  replace (- shift_of s - 1 - (- shift_of q - 1))
    with (shift_of q - shift_of s) by lia.
  replace (s * 2 ^ shift_of s * 2 ^ (shift_of q - shift_of s)
           - q * 2 ^ shift_of q * 2 ^ 0)
    with ((s - q) * 2 ^ shift_of q).
  - apply half_floor; lia.
  - rewrite <- Z.mul_assoc, <- Z.pow_add_r by lia.
    replace (shift_of s + (shift_of q - shift_of s)) with (shift_of q) by lia.
    change (2 ^ 0) with 1. ring.
Qed.

Lemma int_mantissa_bounds (n : Z) :
  1 <= n <= 2000 -> 2 ^ 52 <= Z.pos (int_mantissa n) < 2 ^ 53.
Proof.
  intros Hn. rewrite (int_mantissa_value n Hn). unfold shift_of.
  pose proof (Z.log2_spec n ltac:(lia)) as [Hlo Hhi].
  pose proof (Z.log2_nonneg n) as H0.
  assert (Z.log2 n < 11) by (apply Z.log2_lt_pow2; simpl; lia).
  assert (H52 : 2 ^ 52 = 2 ^ Z.log2 n * 2 ^ (52 - Z.log2 n))
    by (rewrite <- Z.pow_add_r by lia; f_equal; lia).
  assert (H53 : 2 ^ 53 = 2 ^ Z.succ (Z.log2 n) * 2 ^ (52 - Z.log2 n))
    by (rewrite <- Z.pow_add_r by lia; f_equal; lia).
  assert (0 < 2 ^ (52 - Z.log2 n)) by (apply Z.pow_pos_nonneg; lia).
  rewrite H52, H53. split.
  - apply Z.mul_le_mono_nonneg_r; lia.
  - apply Z.mul_lt_mono_pos_r; lia.
Qed.

(** The exact floor of [s * r] for [r] in the lower and in the upper
    binade of the ratios, against the floors of [0.14 s] and
    [0.26 s]. *)
Lemma floor_bounds_low (s t q : Z) :
  0 <= s ->
  s * 5044031582654956 <= t <= s * 9007199254740992 ->
  t / 36028797018963968 <= q <= t / 36028797018963968 + 1 ->
  14 * s / 100 <= q <= 26 * s / 100 + 1.
Proof.
  intros Hs Ht Hq.
  assert (14 * s / 100 <= t / 36028797018963968).
  { apply Z.div_le_lower_bound; [lia|].
    pose proof (Z.mul_div_le (14 * s) 100 ltac:(lia)). lia. }
  assert (t / 36028797018963968 < 26 * s / 100 + 1).
  { apply Z.div_lt_upper_bound; [lia|].
    pose proof (Z.mul_succ_div_gt (26 * s) 100 ltac:(lia)). lia. }
  lia.
Qed.

Lemma floor_bounds_high (s t q : Z) :
  0 <= s <= 2000 ->
  s * 4503599627370496 <= t <= s * 4683743612465316 ->
  t / 18014398509481984 <= q <= t / 18014398509481984 + 1 ->
  14 * s / 100 <= q <= 26 * s / 100 + 1.
Proof.
  intros Hs Ht Hq.
  assert (14 * s / 100 <= t / 18014398509481984).
  { apply Z.div_le_lower_bound; [lia|].
    pose proof (Z.mul_div_le (14 * s) 100 ltac:(lia)). lia. }
  assert (t / 18014398509481984 < 26 * s / 100 + 1).
  { apply Z.div_lt_upper_bound; [lia|].
    pose proof (Z.div_mod (26 * s) 100 ltac:(lia)).
    pose proof (Z.mod_pos_bound (26 * s) 100 ltac:(lia)).
    nia. }
  lia.
Qed.

(** For an integer size [s] from 300 to 2000 and a Number [r] from 0.14
    to 0.26, [Math.floor(s * r)] is an integer between
    [floor (0.14 s)] and [floor (0.26 s) + 1]. *)
Lemma logoSize_range (s : Z) (r : Number) :
  300 <= s <= 2000 ->
  valid_binary prec emax r = true ->
  leb (hundredths 14) r = true -> leb r (hundredths 26) = true ->
  exists q m e,
    Math_floor (mul (of_Z s) r) = of_Z q /\
    14 * s / 100 <= q <= 26 * s / 100 + 1 /\
    r = S754_finite false m e /\
    s * Z.pos m / 2 ^ (- e) <= q <= s * Z.pos m / 2 ^ (- e) + 1.
Proof.
  intros Hs Hvalid Hlo Hhi.
  change (hundredths 14)
    with (S754_finite false 5044031582654956 (-55)) in Hlo.
  change (hundredths 26)
    with (S754_finite false 4683743612465316 (-54)) in Hhi.
  destruct (ratio_between r _ _ Hvalid Hlo Hhi) as (m & e & Hr & Hm & He).
  rewrite Hr.
  destruct (int_forms s ltac:(lia)) as (-> & _ & _ & _).
  pose proof (int_mantissa_bounds s ltac:(lia)) as Hms.
  pose proof (int_mantissa_value s ltac:(lia)) as Hval.
  pose proof (shift_of_range s ltac:(lia)) as Hk.
  set (ms := int_mantissa s) in *. set (k := shift_of s) in *.
  pose proof (digits2_bounds (ms * m)) as [Dlo Dhi].
  set (d := Z.pos (digits2_pos (ms * m))) in *.
  rewrite Pos2Z.inj_mul in Dlo, Dhi.
  change (2 ^ 52) with 4503599627370496 in Hm, Hms.
  change (2 ^ 53) with 9007199254740992 in Hm, Hms.
  assert (Hprod : 2 ^ 104 <= Z.pos ms * Z.pos m < 2 ^ 106).
  { change (2 ^ 104) with (4503599627370496 * 4503599627370496).
    change (2 ^ 106) with (9007199254740992 * 9007199254740992).
    split; [apply Z.mul_le_mono_nonneg | apply Z.mul_lt_mono_nonneg]; lia. }
  assert (Hd : 105 <= d <= 106).
  { split.
    - destruct (Z_lt_le_dec 104 d) as [|Hc]; [lia|].
      assert (2 ^ d <= 2 ^ 104) by (apply Z.pow_le_mono_r; lia). lia.
    - destruct (Z_lt_le_dec 106 d) as [Hc|]; [|lia].
      assert (2 ^ 106 <= 2 ^ (d - 1)) by (apply Z.pow_le_mono_r; lia). lia. }
  destruct (floor_mul_faithful ms m (- k) e) as (q & _ & Hfloor & Hq);
    fold d; try lia.
  exists q, m, e.
  assert (HF : Z.pos (ms * m) / 2 ^ (- (- k + e)) = (s * Z.pos m) / 2 ^ (- e)).
  { rewrite Pos2Z.inj_mul, Hval.
    replace (- (- k + e)) with (- e + k) by lia.
    rewrite Z.pow_add_r by lia.
    replace (s * 2 ^ k * Z.pos m) with (s * Z.pos m * 2 ^ k) by ring.
    apply Z.div_mul_cancel_r; apply Z.pow_nonzero; lia. }
  rewrite HF in Hq.
  assert (Hbounds : 14 * s / 100 <= q <= 26 * s / 100 + 1).
  { destruct He as [[-> Hge]|[-> Hle]].
    - change (2 ^ (- -55)) with 36028797018963968 in Hq.
      apply (floor_bounds_low s (s * Z.pos m) q); [lia | | exact Hq].
      split; apply Z.mul_le_mono_nonneg_l; lia.
    - change (2 ^ (- -54)) with 18014398509481984 in Hq.
      apply (floor_bounds_high s (s * Z.pos m) q); [lia | | exact Hq].
      split; apply Z.mul_le_mono_nonneg_l; lia. }
  assert (Hq0 : q <> 0).
  { pose proof (Z.mul_succ_div_gt (14 * s) 100 ltac:(lia)).
    clear - Hbounds Hs H. lia. }
  split; [apply Hfloor, Hq0|]. split; [exact Hbounds|].
  split; [reflexivity | exact Hq].
Qed.

(* ================================================================== *)
(** ** Geometry of the logo square *)
(* ================================================================== *)

(** The thirteen positions of the slider against every size, by
    evaluation. *)
Lemma slider_checked : forallb slider_ok (zrange 14 13) = true.
Proof. vm_compute. reflexivity. Qed.

Lemma slider_values (k : Z) :
  14 <= k <= 26 ->
  valid_binary prec emax (hundredths k) = true /\
  leb (hundredths 14) (hundredths k) = true /\
  leb (hundredths k) (hundredths 26) = true /\
  forall s, 300 <= s <= 2000 ->
    as_int (Math_floor (mul (of_Z s) (hundredths k))) = Some (s * k / 100).
Proof.
  intros Hk.
  assert (H : slider_ok k = true).
  { apply (forallb_zrange slider_ok 14 13 slider_checked).
    change (Z.of_nat 13) with 13. lia. }
  unfold slider_ok in H. rewrite !andb_true_iff in H.
  destruct H as [[[Hv Hlo] Hhi] Hall].
  repeat split; try assumption.
  intros s Hs.
  assert (Hok : slider_floor_ok (hundredths k) k s = true).
  { apply (forallb_zrange _ 300 1701 Hall).
    change (Z.of_nat 1701) with 1701. lia. }
  unfold slider_floor_ok in Hok.
  destruct (as_int _) as [l|]; [|discriminate].
  apply Z.eqb_eq in Hok. congruence.
Qed.

(** For an integer size [s] from 300 to 2000 and a ratio from 0.14 to
    0.26, [logoSize] is an integer [L], the floor of the exact product
    or one more, and [x = y] is the integer [floor ((s - L) / 2)]. *)
Lemma square_geometry (st : State) (s : Z) :
  size st = of_Z s -> 300 <= s <= 2000 ->
  valid_binary prec emax (logoRatio st) = true ->
  leb (hundredths 14) (logoRatio st) = true ->
  leb (logoRatio st) (hundredths 26) = true ->
  exists L m e,
    as_int (logoSize st) = Some L /\
    as_int (logoCorner st) = Some ((s - L) / 2) /\
    14 * s / 100 <= L <= 26 * s / 100 + 1 /\
    logoRatio st = S754_finite false m e /\
    s * Z.pos m / 2 ^ (- e) <= L <= s * Z.pos m / 2 ^ (- e) + 1.
Proof.
  intros Hsize Hs Hvalid Hlo Hhi.
  destruct (logoSize_range s (logoRatio st) Hs Hvalid Hlo Hhi)
    as (q & m & e & Hfloor & Hq & Hr & Hexact).
  assert (Hq' : 1 <= q <= s /\ s <= 2000).
  { pose proof (Z.mul_succ_div_gt (14 * s) 100 ltac:(lia)).
    pose proof (Z.mul_div_le (26 * s) 100 ltac:(lia)). lia. }
  exists q, m, e.
  assert (HL : logoSize st = of_Z q)
    by (unfold logoSize; rewrite Hsize; exact Hfloor).
  split; [rewrite HL; apply int_forms; lia|].
  split; [|repeat split; solve [assumption | apply Hq | apply Hexact]].
  unfold logoCorner. rewrite HL, Hsize. apply corner_exact; lia.
Qed.

Lemma in_rect_square (x l px py : Z) :
  x <= px < x + l -> x <= py < x + l -> in_rect x x l l px py = true.
Proof.
  intros Hx Hy. unfold in_rect.
  repeat (apply andb_true_iff; split);
    first [apply Z.leb_le | apply Z.ltb_lt]; lia.
Qed.


(* ================================================================== *)
(** ** Images *)
(* ================================================================== *)

Lemma same_image_refl (c : Canvas) : same_image c c.
Proof. repeat split. Qed.

Lemma clearRect_twice (x y w h : Z) (c : Canvas) :
  same_image (clearRect x y w h (clearRect x y w h c)) (clearRect x y w h c).
Proof.
  repeat split. intros px py _. cbn [clearRect pixels].
  destruct (in_rect x y w h px py); reflexivity.
Qed.


(* ================================================================== *)
(** ** Shape of a run *)
(* ================================================================== *)

Section RunShape.

Variable env : Env.
Variable st : State.

(** A run never changes whether there is a canvas and a context. *)
Lemma run_keeps_refs (w : World) :
  mounted (after_run env st w) = mounted w /\
  context2d (after_run env st w) = context2d w.
Proof.
  destruct w as [e m c cv l].
  unfold_run. destruct m; [|split; reflexivity].
  unfold_run. destruct c; [|split; reflexivity].
  unfold_run. destruct (canGenerate env st); [|split; reflexivity].
  unfold_run.
  destruct (QRCode_toCanvas env _ _ _) as [c' [v|]];
    [split; reflexivity|].
  unfold_run. destruct (embedLogo st); [|split; reflexivity].
  unfold_run. destruct (fetch_image env _ _); split; reflexivity.
Qed.

Hypothesis Hvalid : canGenerate env st = true.

(** On an accepted URL the message, the image and the calls made are
    the same whatever world the run starts from. *)
Lemma run_valid_shape :
  exists e c l,
    existsb is_toCanvas l = false /\
    forall w, mounted w = true -> context2d w = true ->
      after_run env st w =
      mkWorld e true true c
        (calls w ++ Call_toCanvas (targetUrl st) (qr_options st) :: l).
Proof.
  destruct (engine_result env st) as [c' [v|]] eqn:He.
  - exists (Some (message_or (js "Failed to generate QR.") v)), c', [].
    split; [reflexivity|]. intros w Hm Hc. unfold after_run.
    rewrite (run_engine_rejects env st w Hm Hc Hvalid c' v He).
    reflexivity.
  - destruct (embedLogo st) eqn:Hlogo.
    + destruct (fetch_image env (js "/logo.png") (js "anonymous"))
        as [img|] eqn:Hfetch.
      * eexists None, _, _. split; [|intros w Hm Hc; unfold after_run;
          rewrite (run_logo env st w Hm Hc Hvalid c' img He Hlogo Hfetch);
          reflexivity].
        reflexivity.
      * eexists _, c', _. split; [|intros w Hm Hc; unfold after_run;
          rewrite (run_logo_missing env st w Hm Hc Hvalid c' He Hlogo Hfetch);
          reflexivity].
        reflexivity.
    + exists None, c', []. split; [reflexivity|].
      intros w Hm Hc. unfold after_run.
      rewrite (run_plain env st w Hm Hc Hvalid c' He Hlogo). reflexivity.
Qed.

End RunShape.


(* ================================================================== *)
(** ** The rendering contract *)
(* ================================================================== *)

(** C1.  When the target text does not parse as a URL with scheme http
    or https, a run on the mounted canvas reports the validation
    message, leaves every pixel of the canvas cleared, and makes no call
    but that [clearRect]: the engine is not called, no logo is loaded,
    nothing is drawn. *)
Theorem invalid_url_clears_and_reports (env : Env) (st : State) (w : World) :
  mounted w = true -> context2d w = true ->
  ~ (exists u, URL_parse env (targetUrl st) = Some u /\
               (scheme u = js "http" \/ scheme u = js "https")) ->
  error (after_run env st w) = Some (js "Please enter a valid http/https URL.")
  /\ Canvas2D.width (canvas (after_run env st w)) = Canvas2D.width (canvas w)
  /\ Canvas2D.height (canvas (after_run env st w)) = Canvas2D.height (canvas w)
  /\ (forall px py, in_bitmap (canvas (after_run env st w)) px py ->
        pixels (canvas (after_run env st w)) px py = transparent_black)
  /\ calls (after_run env st w) =
     calls w ++ [Call_clearRect 0 0 (Canvas2D.width (canvas w))
                                (Canvas2D.height (canvas w))].
Proof.
  intros Hm Hc Hbad.
  assert (Hgen : canGenerate env st = false).
  { destruct (canGenerate env st) eqn:E; [|reflexivity].
    exfalso. apply Hbad, canGenerate_true_iff, E. }
  unfold after_run. rewrite (run_refused env st w Hm Hc Hgen).
  cbn [snd error canvas calls]. repeat split.
  intros px py [Hx Hy].
  cbn [clearRect pixels Canvas2D.width Canvas2D.height] in *.
  replace (in_rect 0 0 (Canvas2D.width (canvas w))
                   (Canvas2D.height (canvas w)) px py)
    with true; [reflexivity|].
  symmetry. unfold in_rect.
  repeat (apply andb_true_iff; split);
    first [apply Z.leb_le | apply Z.ltb_lt]; lia.
Qed.

(** C2.  [isValidHttpUrl] completes normally on every string, and its
    result is [true] exactly when the string parses as a URL whose
    scheme is http or https; on a parse failure or another scheme it is
    [false].  It is a function of the string alone. *)
Theorem isValidHttpUrl_spec (env : Env) (value : JSString) :
  (exists b, isValidHttpUrl env value = Normal b) /\
  (isValidHttpUrl env value = Normal true <->
   exists u, URL_parse env value = Some u /\
             (scheme u = js "http" \/ scheme u = js "https")) /\
  (isValidHttpUrl env value = Normal false <->
   ~ exists u, URL_parse env value = Some u /\
               (scheme u = js "http" \/ scheme u = js "https")).
Proof.
  split; [apply isValidHttpUrl_total|].
  split; [apply isValidHttpUrl_true_iff|].
  rewrite <- isValidHttpUrl_true_iff.
  destruct (isValidHttpUrl_total env value) as [[|] ->].
  - split; [discriminate | intros H; exfalso; apply H; reflexivity].
  - split; [intros _ H; discriminate | reflexivity].
Qed.

(** C3.  On an accepted URL the engine is called exactly once, first,
    with the target text, error-correction level H when the logo is
    embedded and M otherwise, the margin and the size of the state as
    they are, and the colours #000000, which is opaque black, and
    #FFFFFF, which is opaque white. *)
Theorem engine_called_with_options (env : Env) (st : State) (w : World) :
  mounted w = true -> context2d w = true -> canGenerate env st = true ->
  (exists rest,
     calls (after_run env st w) =
     calls w ++
       Call_toCanvas (targetUrl st)
         (QRCode.mkOptions (if embedLogo st then js "H" else js "M")
            (margin st) (size st)
            (QRCode.mkColor (js "#000000") (js "#FFFFFF")))
       :: rest
     /\ existsb is_toCanvas rest = false)
  /\ parse_color (js "#000000") = Some opaque_black
  /\ parse_color (js "#FFFFFF") = Some white.
Proof.
  intros Hm Hc Hvalid. split; [|split; reflexivity].
  destruct (run_valid_shape env st Hvalid) as (e & c & l & Hl & Hrun).
  exists l. rewrite (Hrun w Hm Hc). split; [reflexivity | exact Hl].
Qed.


(** C4.  When the logo is embedded and both the engine and the logo
    load succeed, the white square and the logo are drawn at
    [(x, y) = (c, c)] with side [l], where
    [l = Math.floor(size * logoRatio)] and
    [c = Math.floor(size / 2 - l / 2)] in the arithmetic of Numbers.
    For an integer size [s] from 300 to 2000 and a ratio from 0.14 to
    0.26, [l] is an integer [L], the floor of the exact product of the
    size and the ratio, or one more where the product rounds up to an
    integer, and [floor (s * k / 100)] at the slider position [k/100];
    [c] is the integer [floor ((s - L) / 2)]: the margin left and above
    the square is the margin right and below it, or one pixel less. *)
Theorem logo_square_geometry
    (env : Env) (st : State) (w : World) (c' : Canvas) (img : Image) :
  mounted w = true -> context2d w = true -> canGenerate env st = true ->
  embedLogo st = true ->
  engine_result env st = (c', None) ->
  fetch_image env (js "/logo.png") (js "anonymous") = Some img ->
  let l := Math_floor (mul (size st) (logoRatio st)) in
  let c := Math_floor (sub (div (size st) (of_Z 2)) (div l (of_Z 2))) in
  calls (after_run env st w) =
    calls w ++ [Call_toCanvas (targetUrl st) (qr_options st);
                Call_loadImage (js "/logo.png");
                Call_fillStyle (js "#FFFFFF");
                Call_fillRect c c l l;
                Call_drawImage img c c l l]
  /\ forall s, size st = of_Z s -> 300 <= s <= 2000 ->
       valid_binary prec emax (logoRatio st) = true ->
       leb (hundredths 14) (logoRatio st) = true ->
       leb (logoRatio st) (hundredths 26) = true ->
       exists L X m e,
         as_int l = Some L /\ as_int c = Some X /\
         logoRatio st = S754_finite false m e /\
         s * Z.pos m / 2 ^ (- e) <= L <= s * Z.pos m / 2 ^ (- e) + 1 /\
         (forall k, 14 <= k <= 26 -> logoRatio st = hundredths k ->
                    L = s * k / 100) /\
         X = (s - L) / 2 /\
         X <= s - L - X <= X + 1.
Proof.
  intros Hm Hc Hvalid Hlogo He Hfetch l c. split.
  - unfold after_run.
    rewrite (run_logo env st w Hm Hc Hvalid c' img He Hlogo Hfetch).
    reflexivity.
  - intros s Hsize Hs Hbin Hlo Hhi.
    destruct (square_geometry st s Hsize Hs Hbin Hlo Hhi)
      as (L & m & e & HL & HX & _ & Hr & Hexact).
    exists L, ((s - L) / 2), m, e.
    pose proof (Z.div_mod (s - L) 2 ltac:(lia)).
    pose proof (Z.mod_pos_bound (s - L) 2 ltac:(lia)).
    repeat split; try assumption; try apply Hexact; try lia.
    intros k Hk Hratio.
    destruct (slider_values k Hk) as (_ & _ & _ & Hgrid).
    specialize (Hgrid s Hs).
    unfold logoSize in HL. rewrite Hsize, Hratio in HL. congruence.
Qed.

(** C5, the code at the failing input.  When the engine has drawn and
    the logo then fails to load, the run reports the fallback message
    and stops, and the canvas shows what the engine drew: the symbol
    meant to carry a logo, without it. *)
Theorem logo_failure_leaves_engine_output
    (env : Env) (st : State) (w : World) (c' : Canvas) :
  mounted w = true -> context2d w = true -> canGenerate env st = true ->
  embedLogo st = true ->
  engine_result env st = (c', None) ->
  fetch_image env (js "/logo.png") (js "anonymous") = None ->
  error (after_run env st w) = Some (js "Failed to generate QR.")
  /\ canvas (after_run env st w) = c'
  /\ calls (after_run env st w) =
     calls w ++ [Call_toCanvas (targetUrl st) (qr_options st);
                 Call_loadImage (js "/logo.png")].
Proof.
  intros Hm Hc Hvalid Hlogo He Hfetch. unfold after_run.
  rewrite (run_logo_missing env st w Hm Hc Hvalid c' He Hlogo Hfetch).
  repeat split.
Qed.

(** C6.  On an accepted URL in the mode without logo, the canvas after
    the run is the canvas as the engine returned it: the only call made
    is the one to the engine, no logo is loaded and nothing is drawn
    over its output; the message is the engine's error, if any. *)
Theorem plain_mode_is_engine_output (env : Env) (st : State) (w : World) :
  mounted w = true -> context2d w = true -> canGenerate env st = true ->
  embedLogo st = false ->
  canvas (after_run env st w) = fst (engine_result env st)
  /\ calls (after_run env st w) =
     calls w ++ [Call_toCanvas (targetUrl st) (qr_options st)]
  /\ error (after_run env st w) =
     option_map (message_or (js "Failed to generate QR."))
                (snd (engine_result env st)).
Proof.
  intros Hm Hc Hvalid Hlogo. unfold after_run.
  destruct (engine_result env st) as [c' [v|]] eqn:He.
  - rewrite (run_engine_rejects env st w Hm Hc Hvalid c' v He).
    repeat split.
  - rewrite (run_plain env st w Hm Hc Hvalid c' He Hlogo). repeat split.
Qed.

(** C7.  When the logo is embedded and both the engine and the logo
    load succeed, the fill style is set to #FFFFFF and the square filled
    before the logo is drawn at the same position and size; every pixel
    of that square is then the logo composited over opaque white,
    whatever the engine had drawn there. *)
Theorem logo_square_is_white_backed
    (env : Env) (st : State) (w : World) (c' : Canvas) (img : Image)
    (L X : Z) :
  mounted w = true -> context2d w = true -> canGenerate env st = true ->
  embedLogo st = true ->
  engine_result env st = (c', None) ->
  fetch_image env (js "/logo.png") (js "anonymous") = Some img ->
  as_int (logoSize st) = Some L ->
  as_int (logoCorner st) = Some X ->
  (exists before,
     calls (after_run env st w) =
     before ++ [Call_fillStyle (js "#FFFFFF");
                Call_fillRect (logoCorner st) (logoCorner st)
                              (logoSize st) (logoSize st);
                Call_drawImage img (logoCorner st) (logoCorner st)
                               (logoSize st) (logoSize st)])
  /\ forall px py, X <= px < X + L -> X <= py < X + L ->
       pixels (canvas (after_run env st w)) px py =
       white_backed env img L (px - X) (py - X).
Proof.
  intros Hm Hc Hvalid Hlogo He Hfetch HL HX. unfold after_run.
  rewrite (run_logo env st w Hm Hc Hvalid c' img He Hlogo Hfetch).
  cbn [snd calls canvas]. split.
  - exists (calls w ++ [Call_toCanvas (targetUrl st) (qr_options st);
                        Call_loadImage (js "/logo.png")]).
    rewrite <- app_assoc. reflexivity.
  - intros px py Hpx Hpy.
    unfold drawImage, fillRect, white_backed. rewrite HL, HX.
    change (set_fillStyle (js "#FFFFFF") c')
      with (mkCanvas (Canvas2D.width c') (Canvas2D.height c') white
                     (pixels c')).
    destruct ((naturalWidth img =? 0) || (naturalHeight img =? 0));
      cbn [pixels fillStyle]; rewrite (in_rect_square X L px py Hpx Hpy);
      reflexivity.
Qed.


(** C8.  Running the effect again on the world a run has left gives the
    same message and the same image; and on an accepted URL the message
    and the image are the same from whatever world the run starts, so
    they are a function of the state and of what the environment
    answers. *)
Theorem render_is_function_of_request (env : Env) (st : State) :
  (forall w,
     same_output (after_run env st (after_run env st w)) (after_run env st w))
  /\ (canGenerate env st = true ->
      forall w1 w2,
        mounted w1 = true -> context2d w1 = true ->
        mounted w2 = true -> context2d w2 = true ->
        error (after_run env st w1) = error (after_run env st w2) /\
        canvas (after_run env st w1) = canvas (after_run env st w2)).
Proof.
  assert (Hpure : canGenerate env st = true ->
      forall w1 w2,
        mounted w1 = true -> context2d w1 = true ->
        mounted w2 = true -> context2d w2 = true ->
        error (after_run env st w1) = error (after_run env st w2) /\
        canvas (after_run env st w1) = canvas (after_run env st w2)).
  { intros Hvalid w1 w2 Hm1 Hc1 Hm2 Hc2.
    destruct (run_valid_shape env st Hvalid) as (e & c & l & _ & Hrun).
    rewrite (Hrun w1 Hm1 Hc1), (Hrun w2 Hm2 Hc2). split; reflexivity. }
  split; [|exact Hpure].
  intros w. destruct (run_keeps_refs env st w) as [Hm' Hc'].
  destruct (mounted w) eqn:Hm; [destruct (context2d w) eqn:Hc|].
  - destruct (canGenerate env st) eqn:Hgen.
    + destruct (Hpure eq_refl (after_run env st w) w Hm' Hc' Hm Hc) as [He Hcv].
      split; [exact He | rewrite Hcv; apply same_image_refl].
    + unfold after_run in *.
      rewrite (run_refused env st _ Hm' Hc' Hgen).
      rewrite (run_refused env st w Hm Hc Hgen).
      split; [reflexivity | apply clearRect_twice].
  - unfold after_run in *.
    rewrite (run_no_canvas env st _ (or_intror Hc')).
    rewrite (run_no_canvas env st w (or_intror Hc)).
    split; [reflexivity | apply same_image_refl].
  - unfold after_run in *.
    rewrite (run_no_canvas env st _ (or_introl Hm')).
    rewrite (run_no_canvas env st w (or_introl Hm)).
    split; [reflexivity | apply same_image_refl].
Qed.


(** C10.  In every mode the target is the trimmed field of the mode,
    and it is this string that is validated; white space put around the
    field changes neither the target, nor the verdict, nor anything a
    run does. *)
Theorem target_is_trimmed_field
    (env : Env) (st : State) (pre post : JSString) :
  forallb is_white_space pre = true ->
  forallb is_white_space post = true ->
  let padded := with_active_field (pre ++ active_field st ++ post) st in
  targetUrl st = trim (active_field st)
  /\ canGenerate env st =
     match isValidHttpUrl env (trim (active_field st)) with
     | Normal b => b
     | Throw _ => false
     end
  /\ targetUrl padded = targetUrl st
  /\ canGenerate env padded = canGenerate env st
  /\ forall w, run env padded w = run env st w.
Proof.
  intros Hpre Hpost padded.
  assert (Htarget : targetUrl st = trim (active_field st)).
  { unfold targetUrl, active_field. destruct (Mode_eqb (mode st) redirect);
      reflexivity. }
  assert (Hpad : targetUrl padded = targetUrl st).
  { rewrite Htarget. subst padded. unfold targetUrl, with_active_field.
    destruct (Mode_eqb (mode st) redirect) eqn:E;
      cbn [mode redirectUrl websiteUrl]; rewrite E;
      apply trim_padded; assumption. }
  assert (Hgen : canGenerate env padded = canGenerate env st).
  { unfold canGenerate. rewrite Hpad. reflexivity. }
  split; [exact Htarget|].
  split; [unfold canGenerate; rewrite Htarget; reflexivity|].
  split; [exact Hpad|]. split; [exact Hgen|].
  intros w. unfold run. rewrite Hgen, Hpad.
  replace (qr_options padded) with (qr_options st).
  replace (embedLogo padded) with (embedLogo st).
  replace (size padded) with (size st).
  replace (logoSize padded) with (logoSize st).
  replace (logoCorner padded) with (logoCorner st).
  reflexivity.
  all: subst padded; unfold with_active_field;
    destruct (Mode_eqb (mode st) redirect); reflexivity.
Qed.


(* ================================================================== *)
(** ** The contract on concrete inputs *)
(* ================================================================== *)

(** The scenario of an ftp URL typed over an earlier drawing. *)
Lemma invalid_url_witness :
  error (after_run Sample.online Sample.ftp_state Sample.painted_world)
  = Some (js "Please enter a valid http/https URL.")
  /\ pixels (canvas (after_run Sample.online Sample.ftp_state
                               Sample.painted_world)) 320 240
     = transparent_black
  /\ calls (after_run Sample.online Sample.ftp_state Sample.painted_world)
     = [Call_clearRect 0 0 640 480].
Proof.
  pose proof (invalid_url_clears_and_reports
                Sample.online Sample.ftp_state Sample.painted_world
                eq_refl eq_refl) as H.
  destruct H as (He & _ & _ & Hpx & Hcalls).
  - intros [u [Hu Hs]]. vm_compute in Hu. injection Hu as <-.
    destruct Hs as [Hs|Hs]; vm_compute in Hs; discriminate.
  - split; [exact He|].
    split; [apply Hpx; vm_compute; repeat split; discriminate | exact Hcalls].
Defined.

(** The default state on a fresh canvas: level H, margin 2, width 900. *)
Lemma engine_options_witness :
  exists rest,
    calls (after_run Sample.online initial_state mounted_world) =
    Call_toCanvas DEFAULT_REDIRECT_URL
      (QRCode.mkOptions (js "H") (of_Z 2) (of_Z 900)
         (QRCode.mkColor (js "#000000") (js "#FFFFFF"))) :: rest.
Proof.
  destruct (engine_called_with_options
              Sample.online initial_state mounted_world
              eq_refl eq_refl eq_refl) as [[rest [H _]] _].
  exists rest. exact H.
Defined.

(** The scenario of the default state: 900 pixels at ratio 0.20 give a
    square of side 180 at (360, 360). *)
Lemma logo_geometry_witness :
  exists L X,
    as_int (logoSize initial_state) = Some L /\
    as_int (logoCorner initial_state) = Some X /\
    L = 180 /\ X = 360.
Proof.
  destruct (logo_square_geometry
              Sample.online initial_state mounted_world
              (fst (engine_result Sample.online initial_state)) Sample.logo
              eq_refl eq_refl eq_refl eq_refl eq_refl eq_refl) as [_ H].
  destruct (H 900 eq_refl ltac:(lia) eq_refl eq_refl eq_refl)
    as (L & X & m & e & HL & HX & _ & _ & Hk & HXL & _).
  exists L, X. rewrite (Hk 20 ltac:(lia) eq_refl) in *. subst X.
  repeat split; assumption.
Defined.

(** The default state when the logo cannot be loaded: the message is
    set and the canvas shows the engine's pattern. *)
Lemma logo_failure_witness :
  error (after_run Sample.offline initial_state mounted_world)
  = Some (js "Failed to generate QR.")
  /\ canvas (after_run Sample.offline initial_state mounted_world)
     = fst (engine_result Sample.offline initial_state)
  /\ pixels (fst (engine_result Sample.offline initial_state)) 450 450
     = opaque_black.
Proof.
  destruct (logo_failure_leaves_engine_output
              Sample.offline initial_state mounted_world
              (fst (engine_result Sample.offline initial_state))
              eq_refl eq_refl eq_refl eq_refl eq_refl eq_refl)
    as (He & Hc & _).
  split; [exact He|]. split; [exact Hc | reflexivity].
Defined.

(** The mode without logo: one call, and the engine's canvas. *)
Lemma plain_mode_witness :
  canvas (after_run Sample.online Sample.plain_state mounted_world)
  = fst (engine_result Sample.online Sample.plain_state)
  /\ error (after_run Sample.online Sample.plain_state mounted_world) = None.
Proof.
  destruct (plain_mode_is_engine_output
              Sample.online Sample.plain_state mounted_world
              eq_refl eq_refl eq_refl eq_refl) as (Hc & _ & He).
  split; [exact Hc | exact He].
Defined.

(** The default state: at the centre of the canvas the transparent
    pixel of the sample logo shows the white square, not the engine's
    black. *)
Lemma white_backed_witness :
  pixels (canvas (after_run Sample.online initial_state mounted_world)) 450 450
  = white
  /\ pixels (fst (engine_result Sample.online initial_state)) 450 450
     = opaque_black.
Proof.
  destruct (logo_square_is_white_backed
              Sample.online initial_state mounted_world
              (fst (engine_result Sample.online initial_state)) Sample.logo
              180 360
              eq_refl eq_refl eq_refl eq_refl eq_refl eq_refl
              eq_refl eq_refl) as [_ H].
  split; [|reflexivity].
  rewrite (H 450 450 ltac:(lia) ltac:(lia)). reflexivity.
Defined.

(** The default state drawn over an earlier drawing and on a fresh
    canvas: the same message and the same canvas. *)
Lemma render_function_witness :
  error (after_run Sample.online initial_state Sample.painted_world)
  = error (after_run Sample.online initial_state mounted_world)
  /\ canvas (after_run Sample.online initial_state Sample.painted_world)
     = canvas (after_run Sample.online initial_state mounted_world).
Proof.
  exact (proj2 (render_is_function_of_request Sample.online initial_state)
               eq_refl Sample.painted_world mounted_world
               eq_refl eq_refl eq_refl eq_refl).
Defined.



(** The default URL with a space, a tab and a no-break space around
    it. *)
Lemma trimmed_field_witness :
  targetUrl (with_active_field
               (Sample.padding ++ DEFAULT_REDIRECT_URL ++ Sample.padding)
               initial_state)
  = DEFAULT_REDIRECT_URL.
Proof.
  destruct (target_is_trimmed_field
              Sample.online initial_state Sample.padding Sample.padding
              eq_refl eq_refl) as (_ & _ & H & _).
  exact H.
Defined.

(* ================================================================== *)
(** ** More on strings *)
(* ================================================================== *)

Lemma trimStart_split (s : JSString) :
  exists pre, s = pre ++ trimStart s /\
              forallb is_white_space pre = true /\
              starts_white (trimStart s) = false.
Proof.
  induction s as [|c s (pre & Hs & Hpre & Hstart)]; simpl.
  - exists []. repeat split.
  - destruct (is_white_space c) eqn:E.
    + exists (c :: pre). simpl. rewrite E, Hpre. repeat split; [|exact Hstart].
      f_equal. exact Hs.
    + exists []. simpl. rewrite E. repeat split.
Qed.

Lemma trimEnd_split (s : JSString) :
  exists post, s = trimEnd s ++ post /\
               forallb is_white_space post = true /\
               starts_white (rev (trimEnd s)) = false.
Proof.
  destruct (trimStart_split (rev s)) as (pre & Hs & Hpre & Hstart).
  exists (rev pre). unfold trimEnd. rewrite rev_involutive.
  split; [|split; [|exact Hstart]].
  - rewrite <- rev_app_distr, <- Hs, rev_involutive. reflexivity.
  - rewrite forallb_forall in *. intros c Hc. apply Hpre, in_rev, Hc.
Qed.

(** A prefix of a string that does not begin with white space does not
    either. *)
Lemma starts_white_prefix (s post : JSString) :
  starts_white (s ++ post) = false -> starts_white s = false.
Proof. destruct s; [reflexivity | exact (fun H => H)]. Qed.

(** [trim] takes white space off both ends and nothing else. *)
Lemma trim_split (s : JSString) :
  exists pre post,
    s = pre ++ trim s ++ post /\
    forallb is_white_space pre = true /\
    forallb is_white_space post = true /\
    starts_white (trim s) = false /\
    starts_white (rev (trim s)) = false.
Proof.
  destruct (trimStart_split s) as (pre & Hs & Hpre & Hstart).
  destruct (trimEnd_split (trimStart s)) as (post & Ht & Hpost & Hend).
  exists pre, post. unfold trim. repeat split; try assumption.
  - rewrite <- Ht. exact Hs.
  - apply (starts_white_prefix _ post). rewrite <- Ht. exact Hstart.
Qed.

Lemma trim_fixed (s : JSString) :
  starts_white s = false -> starts_white (rev s) = false -> trim s = s.
Proof.
  intros Hs He. unfold trim.
  assert (H1 : forall t, starts_white t = false -> trimStart t = t).
  { intros [|c t]; simpl; [reflexivity|]. intros ->. reflexivity. }
  rewrite (H1 s Hs). unfold trimEnd. rewrite (H1 _ He).
  apply rev_involutive.
Qed.

(* ================================================================== *)
(** ** More on runs *)
(* ================================================================== *)

(** [run] reads the state through the memoised target and verdict, the
    mode's [embedLogo] and the three Numbers only. *)
Lemma run_congruence (env : Env) (a b : State) :
  targetUrl a = targetUrl b -> size a = size b ->
  logoRatio a = logoRatio b -> margin a = margin b ->
  canGenerate env a = canGenerate env b -> embedLogo a = embedLogo b ->
  forall w, run env a w = run env b w.
Proof.
  intros Ht Hs Hr Hm Hg He w.
  unfold run, qr_options, logoCorner, logoSize.
  rewrite Ht, Hs, Hr, Hm, Hg, He. reflexivity.
Qed.

Lemma deps_same_eq (env : Env) (a b : State) :
  deps_same env a b = true ->
  targetUrl a = targetUrl b /\ size a = size b /\
  logoRatio a = logoRatio b /\ margin a = margin b /\
  canGenerate env a = canGenerate env b /\ embedLogo a = embedLogo b.
Proof.
  unfold deps_same. rewrite !andb_true_iff.
  intros [[[[[Ht Hs] Hr] Hm] Hg] He].
  apply str_eqb_eq in Ht. apply same_Number_eq in Hs, Hr, Hm.
  apply Bool.eqb_prop in Hg, He. repeat split; assumption.
Qed.

Lemma same_Number_refl (x : Number) : same_Number x x = true.
Proof.
  destruct x as [[|]|[|]| |[|] m e]; simpl;
    rewrite ?Pos.eqb_refl, ?Z.eqb_refl; reflexivity.
Qed.

Lemma deps_same_intro (env : Env) (a b : State) :
  targetUrl a = targetUrl b -> size a = size b ->
  logoRatio a = logoRatio b -> margin a = margin b ->
  canGenerate env a = canGenerate env b -> embedLogo a = embedLogo b ->
  deps_same env a b = true.
Proof.
  intros Ht Hs Hr Hm Hg He. unfold deps_same.
  rewrite Ht, Hs, Hr, Hm, Hg, He, !same_Number_refl, !Bool.eqb_reflx.
  rewrite (proj2 (str_eqb_eq _ _) eq_refl). reflexivity.
Qed.


(* ================================================================== *)
(** ** Further properties of the component *)
(* ================================================================== *)

(** X1.  A run never completes by throwing: whatever the engine or the
    logo load rejects with is caught and turned into a message. *)
Theorem run_never_throws (env : Env) (st : State) (w : World) :
  fst (run env st w) = Normal tt.
Proof.
  destruct w as [e m c cv l].
  unfold_run. destruct m; [|reflexivity].
  unfold_run. destruct c; [|reflexivity].
  unfold_run. destruct (canGenerate env st); [|reflexivity].
  unfold_run.
  destruct (QRCode_toCanvas env _ _ _) as [c' [v|]]; [reflexivity|].
  unfold_run. destruct (embedLogo st); [|reflexivity].
  unfold_run. destruct (fetch_image env _ _); reflexivity.
Qed.

(** X2.  Without a canvas, or without a 2D context, a run resets the
    message and does nothing else: the canvas is not touched, nothing
    is called, and even a refused URL is not reported. *)
Theorem no_canvas_only_resets_message (env : Env) (st : State) (w : World) :
  mounted w = false \/ context2d w = false ->
  error (after_run env st w) = None
  /\ canvas (after_run env st w) = canvas w
  /\ calls (after_run env st w) = calls w.
Proof.
  intros H. unfold after_run. rewrite (run_no_canvas env st w H).
  repeat split.
Qed.

(** X3.  When the engine rejects, the message is the [message] of the
    error it rejects with, or the fallback text when that is not an
    [Error]; the logo is not requested and nothing is drawn over what
    the engine left. *)
Theorem engine_rejection_is_reported
    (env : Env) (st : State) (w : World) (c' : Canvas) (v : Value) :
  mounted w = true -> context2d w = true -> canGenerate env st = true ->
  engine_result env st = (c', Some v) ->
  error (after_run env st w)
  = Some (match v with
          | ErrorObject m => m
          | NotAnError => js "Failed to generate QR."
          end)
  /\ canvas (after_run env st w) = c'
  /\ calls (after_run env st w) =
     calls w ++ [Call_toCanvas (targetUrl st) (qr_options st)].
Proof.
  intros Hm Hc Hvalid He. unfold after_run.
  rewrite (run_engine_rejects env st w Hm Hc Hvalid c' v He).
  destruct v; repeat split.
Qed.

(** X4.  On a mounted canvas a run ends without a message exactly when
    the URL is accepted, the engine succeeds and, if a logo is to be
    embedded, the logo loads; a message left by an earlier run does not
    count. *)
Theorem no_message_iff_success (env : Env) (st : State) (w : World) :
  mounted w = true -> context2d w = true ->
  (error (after_run env st w) = None <->
   canGenerate env st = true /\
   snd (engine_result env st) = None /\
   (embedLogo st = true ->
    fetch_image env (js "/logo.png") (js "anonymous") <> None)).
Proof.
  intros Hm Hc. unfold after_run.
  destruct (canGenerate env st) eqn:Hgen.
  - destruct (engine_result env st) as [c' [v|]] eqn:He.
    + rewrite (run_engine_rejects env st w Hm Hc Hgen c' v He).
      split; [discriminate | intros (_ & H & _); discriminate].
    + destruct (embedLogo st) eqn:Hlogo.
      * destruct (fetch_image env (js "/logo.png") (js "anonymous"))
          as [img|] eqn:Hfetch.
        -- rewrite (run_logo env st w Hm Hc Hgen c' img He Hlogo Hfetch).
           split; [|reflexivity]. intros _. repeat split. discriminate.
        -- rewrite (run_logo_missing env st w Hm Hc Hgen c' He Hlogo Hfetch).
           split; [discriminate|]. intros (_ & _ & H).
           exfalso. apply (H eq_refl). reflexivity.
      * rewrite (run_plain env st w Hm Hc Hgen c' He Hlogo).
        split; [|reflexivity]. intros _. repeat split. discriminate.
  - rewrite (run_refused env st w Hm Hc Hgen).
    split; [discriminate | intros (H & _); discriminate].
Qed.

(** X5.  A run requests the logo at most once, always from
    [/logo.png], and exactly when the URL is accepted, the engine has
    succeeded and the mode embeds a logo; it draws on the canvas only
    after the logo has loaded. *)
Theorem logo_requested_iff (env : Env) (st : State) (w : World) :
  mounted w = true -> context2d w = true ->
  exists l,
    calls (after_run env st w) = calls w ++ l
    /\ filter is_loadImage l =
       (if canGenerate env st && embedLogo st
           && match snd (engine_result env st) with
              | None => true
              | Some _ => false
              end
        then [Call_loadImage (js "/logo.png")] else [])
    /\ (existsb is_drawing l = true ->
        fetch_image env (js "/logo.png") (js "anonymous") <> None).
Proof.
  intros Hm Hc. unfold after_run.
  destruct (canGenerate env st) eqn:Hgen.
  - destruct (engine_result env st) as [c' [v|]] eqn:He.
    + rewrite (run_engine_rejects env st w Hm Hc Hgen c' v He).
      eexists. split; [reflexivity|]. rewrite andb_false_r.
      split; [reflexivity | discriminate].
    + destruct (embedLogo st) eqn:Hlogo.
      * destruct (fetch_image env (js "/logo.png") (js "anonymous"))
          as [img|] eqn:Hfetch.
        -- rewrite (run_logo env st w Hm Hc Hgen c' img He Hlogo Hfetch).
           eexists. split; [reflexivity|].
           split; [reflexivity | discriminate].
        -- rewrite (run_logo_missing env st w Hm Hc Hgen c' He Hlogo Hfetch).
           eexists. split; [reflexivity|].
           split; [reflexivity | discriminate].
      * rewrite (run_plain env st w Hm Hc Hgen c' He Hlogo).
        eexists. split; [reflexivity|].
        split; [reflexivity | discriminate].
  - rewrite (run_refused env st w Hm Hc Hgen).
    eexists. split; [reflexivity|]. split; [reflexivity | discriminate].
Qed.

(** X6.  The dependency list of the effect is complete: two states
    that agree on the six dependencies make [run] behave the same on
    every world, so skipping the effect between them loses nothing. *)
Theorem effect_dependencies_complete (env : Env) (a b : State) :
  deps_same env a b = true -> forall w, run env a w = run env b w.
Proof.
  intros H.
  destruct (deps_same_eq env a b H) as (Ht & Hs & Hr & Hm & Hg & He).
  apply run_congruence; assumption.
Qed.


(** X8.  The URL field of the other mode is ignored: in redirect mode
    editing the website URL, and in the other two modes editing the
    redirect URL, changes no dependency of the effect and nothing a
    run does. *)
Theorem inactive_field_is_ignored (env : Env) (st : State) (value : JSString) :
  let ev := if Mode_eqb (mode st) redirect
            then Change_websiteUrl value else Change_redirectUrl value in
  deps_same env st (handle env ev st) = true
  /\ forall w, run env (handle env ev st) w = run env st w.
Proof.
  intros ev.
  assert (H : targetUrl (handle env ev st) = targetUrl st).
  { subst ev. unfold targetUrl.
    destruct (Mode_eqb (mode st) redirect) eqn:E;
      cbn [handle mode redirectUrl websiteUrl]; rewrite E; reflexivity. }
  assert (Hrest : size (handle env ev st) = size st /\
                  logoRatio (handle env ev st) = logoRatio st /\
                  margin (handle env ev st) = margin st /\
                  embedLogo (handle env ev st) = embedLogo st).
  { subst ev. destruct (Mode_eqb (mode st) redirect); repeat split. }
  destruct Hrest as (Hs & Hr & Hm & He).
  assert (Hg : canGenerate env (handle env ev st) = canGenerate env st)
    by (unfold canGenerate; rewrite H; reflexivity).
  split.
  - apply deps_same_intro; auto.
  - apply run_congruence; assumption.
Qed.

(** X9.  Without a logo the ratio plays no part: in the mode that
    embeds none, a run does the same for every logo ratio. *)
Theorem plain_mode_ignores_logoRatio
    (env : Env) (st : State) (r : Number) (w : World) :
  embedLogo st = false ->
  run env (with_logoRatio r st) w = run env st w.
Proof.
  intros Hlogo.
  assert (Hlogo' : embedLogo (with_logoRatio r st) = false) by exact Hlogo.
  unfold run.
  change (canGenerate env (with_logoRatio r st)) with (canGenerate env st).
  change (targetUrl (with_logoRatio r st)) with (targetUrl st).
  change (qr_options (with_logoRatio r st)) with (qr_options st).
  change (size (with_logoRatio r st)) with (size st).
  rewrite Hlogo, Hlogo'. reflexivity.
Qed.

(** X10.  Embedding the logo changes the engine's image inside the
    logo square only: the dimensions are the engine's and so is every
    pixel outside the square, and every pixel at all when the square is
    empty or its coordinates are not finite. *)
Theorem outside_logo_square_untouched
    (env : Env) (st : State) (w : World) (c' : Canvas) (img : Image) :
  mounted w = true -> context2d w = true -> canGenerate env st = true ->
  embedLogo st = true ->
  engine_result env st = (c', None) ->
  fetch_image env (js "/logo.png") (js "anonymous") = Some img ->
  Canvas2D.width (canvas (after_run env st w)) = Canvas2D.width c'
  /\ Canvas2D.height (canvas (after_run env st w)) = Canvas2D.height c'
  /\ forall px py, in_logo_square st px py = false ->
       pixels (canvas (after_run env st w)) px py = pixels c' px py.
Proof.
  intros Hm Hc Hvalid Hlogo He Hfetch. unfold after_run.
  rewrite (run_logo env st w Hm Hc Hvalid c' img He Hlogo Hfetch).
  cbn [snd canvas].
  change (set_fillStyle (js "#FFFFFF") c')
    with (mkCanvas (Canvas2D.width c') (Canvas2D.height c') white
                   (pixels c')).
  unfold in_logo_square, drawImage, fillRect.
  destruct (as_int (logoCorner st)) as [x|];
    [|repeat split].
  destruct (as_int (logoSize st)) as [l|]; [|repeat split].
  destruct ((naturalWidth img =? 0) || (naturalHeight img =? 0));
    repeat split; intros px py Hout; cbn [pixels]; rewrite Hout;
    reflexivity.
Qed.

(** X11.  The target is the field of the mode with the white space at
    its two ends removed and nothing else: the field is white space,
    then the target, then white space, and the target neither begins
    nor ends with white space, so trimming it again changes nothing. *)
Theorem target_is_field_core (st : State) :
  (exists pre post,
     active_field st = pre ++ targetUrl st ++ post /\
     forallb is_white_space pre = true /\
     forallb is_white_space post = true)
  /\ starts_white (targetUrl st) = false
  /\ starts_white (rev (targetUrl st)) = false
  /\ trim (targetUrl st) = targetUrl st.
Proof.
  assert (Ht : targetUrl st = trim (active_field st)).
  { unfold targetUrl, active_field.
    destruct (Mode_eqb (mode st) redirect); reflexivity. }
  rewrite Ht.
  destruct (trim_split (active_field st))
    as (pre & post & Hs & Hpre & Hpost & Hstart & Hend).
  split; [exists pre, post; repeat split; assumption|].
  split; [exact Hstart|]. split; [exact Hend|].
  apply trim_fixed; assumption.
Qed.

(** X12.  The Download button follows the URL alone: after a run in
    which the logo failed to load it is enabled beside the error
    message, and a click downloads the canvas as the engine left it,
    under the file name of the mode. *)
Theorem download_survives_logo_failure
    (env : Env) (toDataURL : Canvas -> JSString -> JSString)
    (st : State) (w : World) (c' : Canvas) :
  mounted w = true -> context2d w = true -> canGenerate env st = true ->
  embedLogo st = true ->
  engine_result env st = (c', None) ->
  fetch_image env (js "/logo.png") (js "anonymous") = None ->
  error (after_run env st w) = Some (js "Failed to generate QR.")
  /\ click_download env toDataURL st (after_run env st w)
     = Some (mkDownload (toDataURL c' (js "image/png"))
                        (fileName (mode st))).
Proof.
  intros Hm Hc Hvalid Hlogo He Hfetch.
  unfold click_download, downloadPng, after_run.
  rewrite (run_logo_missing env st w Hm Hc Hvalid c' He Hlogo Hfetch).
  rewrite Hvalid. split; reflexivity.
Qed.

(** X13.  The file name of a download tells the mode: two modes have
    the same file name only when they are the same mode. *)
Theorem fileName_identifies_mode (m1 m2 : Mode) :
  str_eqb (fileName m1) (fileName m2) = Mode_eqb m1 m2.
Proof. destruct m1, m2; reflexivity. Qed.

(** X14.  What is typed into the URL field on screen is what is
    encoded, up to the trimming: a change of the field the mode shows
    makes the target the trimmed text and leaves the mode alone. *)
Theorem typed_url_becomes_target
    (env : Env) (st : State) (ev : Event) (value : JSString) :
  ev = Change_redirectUrl value \/ ev = Change_websiteUrl value ->
  offered st ev = true ->
  targetUrl (handle env ev st) = trim value
  /\ mode (handle env ev st) = mode st.
Proof.
  intros [-> | ->] Hoff; cbn [offered] in Hoff;
    unfold targetUrl; cbn [handle mode redirectUrl websiteUrl].
  - rewrite Hoff. split; reflexivity.
  - apply negb_true_iff in Hoff. rewrite Hoff. split; reflexivity.
Qed.

(** X15.  The website and plain modes encode the same field: switching
    between them, in either direction, keeps the target and the verdict
    and changes only whether a logo is embedded. *)
Theorem website_and_plain_share_target
    (env : Env) (st : State) (m : Mode) :
  mode st <> redirect -> m <> redirect ->
  targetUrl (handle env (Click_mode m) st) = targetUrl st
  /\ canGenerate env (handle env (Click_mode m) st) = canGenerate env st
  /\ embedLogo (handle env (Click_mode m) st) = negb (Mode_eqb m plain).
Proof.
  intros Hst Hm.
  assert (H : targetUrl (handle env (Click_mode m) st) = targetUrl st).
  { unfold targetUrl. cbn [handle mode redirectUrl websiteUrl].
    destruct (mode st), m; try contradiction; reflexivity. }
  split; [exact H|].
  split; [unfold canGenerate; rewrite H; reflexivity | reflexivity].
Qed.

Lemma in_rect_empty (x y h px py : Z) : in_rect x y 0 h px py = false.
Proof.
  unfold in_rect. rewrite Z.add_0_r, Z.min_id, Z.max_id.
  destruct (Z.leb_spec x px), (Z.ltb_spec px x); simpl;
    try reflexivity; lia.
Qed.

(** X16.  Clearing the size field, which makes the size 0, is not
    guarded against: the canvas handed to the engine is 0 by 0, the
    engine is asked for a width of 0, and the logo square is empty. *)
Theorem emptied_size_field (env : Env) (st : State) :
  ToNumber env [] = S754_zero false ->
  (exists s m e, logoRatio st = S754_finite s m e) ->
  allocated (handle env (Change_size []) st) = blank 0 0
  /\ QRCode.width (qr_options (handle env (Change_size []) st))
     = S754_zero false
  /\ forall px py,
       in_logo_square (handle env (Change_size []) st) px py = false.
Proof.
  intros Hzero (s & m & e & Hr).
  unfold allocated, qr_options, in_logo_square, logoCorner, logoSize.
  cbn [handle size logoRatio QRCode.width]. rewrite Hzero, Hr.
  split; [reflexivity|]. split; [reflexivity|].
  intros px py. cbn [mul SFmul Math_floor xorb].
  destruct s;
    match goal with
    | |- context [as_int (Math_floor ?x)] =>
        change (as_int (Math_floor x)) with (Some 0)
    end;
    cbn [as_int]; apply in_rect_empty.
Qed.

(* ================================================================== *)
(** ** The further properties on concrete inputs *)
(* ================================================================== *)

(** An invalid URL with no canvas: the stale message goes, nothing is
    reported. *)
Lemma no_canvas_witness :
  error (after_run Sample.online Sample.ftp_state Scenario.unmounted_world)
  = None
  /\ calls (after_run Sample.online Sample.ftp_state
                      Scenario.unmounted_world) = [].
Proof.
  destruct (no_canvas_only_resets_message
              Sample.online Sample.ftp_state Scenario.unmounted_world
              (or_introl eq_refl)) as (He & _ & Hc).
  split; [exact He | exact Hc].
Defined.

(** A URL too long for the sample engine: its message is shown. *)
Lemma engine_rejection_witness :
  error (after_run Sample.online Scenario.long_state mounted_world)
  = Some (js "The amount of data is too big").
Proof.
  exact (proj1 (engine_rejection_is_reported
                  Sample.online Scenario.long_state mounted_world
                  (allocated Scenario.long_state)
                  (ErrorObject (js "The amount of data is too big"))
                  eq_refl eq_refl eq_refl eq_refl)).
Defined.

(** The default state with the logo served, over a stale message. *)
Lemma no_message_witness :
  error (after_run Sample.online initial_state Sample.painted_world) = None.
Proof.
  apply (proj2 (no_message_iff_success
                  Sample.online initial_state Sample.painted_world
                  eq_refl eq_refl)).
  repeat split. discriminate.
Defined.

(** The default state: one request for the logo. *)
Lemma logo_requested_witness :
  filter is_loadImage
    (calls (after_run Sample.online initial_state mounted_world))
  = [Call_loadImage (js "/logo.png")].
Proof.
  destruct (logo_requested_iff Sample.online initial_state mounted_world
              eq_refl eq_refl) as (l & Hl & Hf & _).
  rewrite Hl. exact Hf.
Defined.

(** Editing the hidden website field changes no dependency. *)
Lemma effect_dependencies_witness :
  run Sample.online initial_state mounted_world
  = run Sample.online Scenario.hidden_edit mounted_world.
Proof.
  exact (effect_dependencies_complete
           Sample.online initial_state Scenario.hidden_edit eq_refl
           mounted_world).
Defined.

(** The plain state at ratio 0.26. *)
Lemma plain_ratio_witness :
  run Sample.online (with_logoRatio (hundredths 26) Sample.plain_state)
      mounted_world
  = run Sample.online Sample.plain_state mounted_world.
Proof.
  exact (plain_mode_ignores_logoRatio
           Sample.online Sample.plain_state (hundredths 26) mounted_world
           eq_refl).
Defined.

(** The default state: the corner pixel of the image is the engine's. *)
Lemma outside_square_witness :
  pixels (canvas (after_run Sample.online initial_state mounted_world)) 0 0
  = opaque_black.
Proof.
  destruct (outside_logo_square_untouched
              Sample.online initial_state mounted_world
              (fst (engine_result Sample.online initial_state)) Sample.logo
              eq_refl eq_refl eq_refl eq_refl eq_refl eq_refl)
    as (_ & _ & H).
  rewrite (H 0 0 eq_refl). reflexivity.
Defined.

(** The default state with the logo unreachable: a download of 900
    pixels named for the redirect mode. *)
Lemma download_witness :
  click_download Sample.offline Scenario.data_url initial_state
    (after_run Sample.offline initial_state mounted_world)
  = Some (mkDownload (js "data:image/png" ++ [900%N])
                     (js "qr-redirect.png")).
Proof.
  exact (proj2 (download_survives_logo_failure
                  Sample.offline Scenario.data_url initial_state
                  mounted_world
                  (fst (engine_result Sample.offline initial_state))
                  eq_refl eq_refl eq_refl eq_refl eq_refl eq_refl)).
Defined.

(** Typing a padded URL into the redirect field of the default state. *)
Lemma typed_url_witness :
  targetUrl (handle Sample.online
               (Change_redirectUrl (js " https://a.example "))
               initial_state)
  = js "https://a.example".
Proof.
  exact (proj1 (typed_url_becomes_target
                  Sample.online initial_state
                  (Change_redirectUrl (js " https://a.example "))
                  (js " https://a.example ")
                  (or_introl eq_refl) eq_refl)).
Defined.

(** From the plain state to the website mode. *)
Lemma shared_target_witness :
  targetUrl (handle Sample.online (Click_mode website) Sample.plain_state)
  = targetUrl Sample.plain_state.
Proof.
  refine (proj1 (website_and_plain_share_target
                   Sample.online Sample.plain_state website _ _));
    discriminate.
Defined.

(** The default state with the size field cleared. *)
Lemma emptied_size_witness :
  allocated (handle Sample.online (Change_size []) initial_state)
  = blank 0 0.
Proof.
  refine (proj1 (emptied_size_field Sample.online initial_state eq_refl _)).
  vm_compute. eexists _, _, _. reflexivity.
Defined.
